(** * VideoCall signaling server: room store and connection registry

    A shallow embedding of [server/server.js]: the two module-level maps
    [rooms] and [users], the room code generator, and the socket.io event
    handlers ([create-room], [join-room], [offer], [answer],
    [ice-candidate], [translation-audio], [disconnect]), followed by the
    properties of the room-membership protocol. *)

From Stdlib Require Import ZArith Ascii String.
From stdpp Require Import base option list gmap strings fin_maps.

Local Open Scope string_scope.
Local Open Scope list_scope.
Local Open Scope nat_scope.

(** ** JavaScript strings (the ASCII fragment the generator produces) *)

Module JsString.

(** [c.toUpperCase()] on one ASCII character: [a]..[z] move to
    [A]..[Z], everything else is kept. *)
Definition upper_ascii (c : ascii) : ascii :=
  let n := nat_of_ascii c in
  if (97 <=? n)%nat && (n <=? 122)%nat then ascii_of_nat (n - 32) else c.

Fixpoint toUpperCase (s : string) : string :=
  match s with
  | EmptyString => EmptyString
  | String c s' => String (upper_ascii c) (toUpperCase s')
  end.

(** [s.substring(start, end)]: the characters at indices
    [start <= i < end], both ends clamped to the length of [s] and
    swapped when [start > end]. *)
Definition substring (start end_ : nat) (s : string) : string :=
  let lo := Nat.min start end_ in
  let hi := Nat.max start end_ in
  String.substring lo (hi - lo) s.

(** Characters a rendered room code may contain. *)
Definition is_upper_alnum (c : ascii) : bool :=
  let n := nat_of_ascii c in
  ((48 <=? n)%nat && (n <=? 57)%nat) || ((65 <=? n)%nat && (n <=? 90)%nat).

(** Digits of [Number.prototype.toString(36)]: [0]..[9], [a]..[z]. *)
Definition is_radix36_digit (c : ascii) : bool :=
  let n := nat_of_ascii c in
  ((48 <=? n)%nat && (n <=? 57)%nat) || ((97 <=? n)%nat && (n <=? 122)%nat).

Fixpoint forallb (p : ascii → bool) (s : string) : bool :=
  match s with
  | EmptyString => true
  | String c s' => p c && forallb p s'
  end.

End JsString.

(** ** JavaScript [Map] with string keys

    A [Map] iterates in insertion order and [room.users.values()] is sent
    to clients, so the member map is an association list in insertion
    order.  [set] overwrites in place when the key is present and appends
    otherwise; [delete] drops the key. *)

Module JsMap.
Section Ops.
Context {V : Type}.

Definition t := list (string * V).

Definition empty : t := [].

Fixpoint get (k : string) (m : t) : option V :=
  match m with
  | [] => None
  | (k', v) :: m' => if decide (k' = k) then Some v else get k m'
  end.

Fixpoint set (k : string) (v : V) (m : t) : t :=
  match m with
  | [] => [(k, v)]
  | (k', v') :: m' =>
      if decide (k' = k) then (k, v) :: m' else (k', v') :: set k v m'
  end.

Fixpoint delete (k : string) (m : t) : t :=
  match m with
  | [] => []
  | (k', v') :: m' =>
      if decide (k' = k) then delete k m' else (k', v') :: delete k m'
  end.

Definition size (m : t) : nat := length m.

Definition keys (m : t) : list string := m.*1.

Definition values (m : t) : list V := m.*2.

End Ops.
Arguments t : clear implicits.
End JsMap.

(** ** Data model *)

(** Entries of [room.users]: [{ id, name, isHost }]. *)
Record Participant := mkParticipant {
  id : string;
  name : string;
  isHost : bool
}.

(** Entries of [rooms]: [{ code, host, users, createdAt }]. *)
Record Room := mkRoom {
  room_code : string;
  room_host : string;
  room_users : JsMap.t Participant;
  room_createdAt : Z
}.

(** Entries of [users]: [{ roomCode, name }]. *)
Record UserEntry := mkUserEntry {
  user_roomCode : string;
  user_name : string
}.

(** Signaling payloads and audio blobs are relayed without being read. *)
Definition Payload := string.

(** Events the server sends, with the payload fields of the source. *)
Inductive OutEvent :=
| RoomCreated (roomCode : string) (isHost : bool) (users : list Participant)
| RoomJoined (roomCode : string) (users : list Participant) (isHost : bool)
| UserJoined (user_id user_name : string) (users : list Participant)
| UserLeft (userId : string) (users : list Participant)
| Offer (offer : Payload) (caller : string)
| Answer (answer : Payload) (answerer : string)
| IceCandidate (candidate : Payload) (sender : string)
| TranslationAudio (audio : Payload) (language : string) (sender : string)
| Error (message : string).

(** The two ways the handlers send: [socket.emit(ev)] reaches the socket
    itself, [socket.to(room).emit(ev)] reaches every socket in the
    socket.io room [room] except the sending socket. *)
Inductive Emit :=
| SocketEmit (socket_id : string) (ev : OutEvent)
| SocketTo (socket_id : string) (room : string) (ev : OutEvent).

(** Server state: the module-level [rooms] and [users] maps and the
    socket.io adapter (room name to the set of socket ids joined to it;
    every connected socket sits in a room named by its own id). *)
Record State := mkState {
  rooms : gmap string Room;
  users : gmap string UserEntry;
  sio_rooms : gmap string (gset string)
}.

Definition init : State := mkState ∅ ∅ ∅.

(** The capacity the source hard-codes in the [join-room] guard. *)
Definition MAX_ROOM_SIZE : nat := 4.

(** ** Handler monad: state of the server plus the list of sends *)

Definition M (A : Type) : Type := State → A * State * list Emit.

Global Instance M_ret : MRet M := λ A a st, (a, st, []).

Global Instance M_bind : MBind M := λ A B k m st,
  let '(a, st1, out1) := m st in
  let '(b, st2, out2) := k a st1 in
  (b, st2, out1 ++ out2).

Definition exec {A} (m : M A) (st : State) : State * list Emit :=
  let '(_, st', out) := m st in (st', out).

(** Primitive operations on the stores and on the socket. *)

Definition rooms_get (roomCode : string) : M (option Room) :=
  λ st, (rooms st !! roomCode, st, []).

Definition rooms_set (roomCode : string) (room : Room) : M unit :=
  λ st, (tt, mkState (<[roomCode := room]> (rooms st)) (users st) (sio_rooms st), []).

Definition rooms_delete (roomCode : string) : M unit :=
  λ st, (tt, mkState (delete roomCode (rooms st)) (users st) (sio_rooms st), []).

Definition users_get (socket_id : string) : M (option UserEntry) :=
  λ st, (users st !! socket_id, st, []).

Definition users_set (socket_id : string) (u : UserEntry) : M unit :=
  λ st, (tt, mkState (rooms st) (<[socket_id := u]> (users st)) (sio_rooms st), []).

Definition users_delete (socket_id : string) : M unit :=
  λ st, (tt, mkState (rooms st) (delete socket_id (users st)) (sio_rooms st), []).

(** [socket.join(room)]. *)
Definition adapter_add (socket_id room : string)
    (ad : gmap string (gset string)) : gmap string (gset string) :=
  <[room := {[socket_id]} ∪ default ∅ (ad !! room)]> ad.

(** What the adapter does when a socket closes: it leaves every room, and
    rooms left without sockets disappear. *)
Definition adapter_del_all (socket_id : string)
    (ad : gmap string (gset string)) : gmap string (gset string) :=
  omap (λ S, let S' := S ∖ {[socket_id]} in
             if decide (S' = ∅) then None else Some S') ad.

Definition socket_join (socket_id room : string) : M unit :=
  λ st, (tt, mkState (rooms st) (users st) (adapter_add socket_id room (sio_rooms st)), []).

Definition socket_emit (socket_id : string) (ev : OutEvent) : M unit :=
  λ st, (tt, st, [SocketEmit socket_id ev]).

Definition socket_to (socket_id room : string) (ev : OutEvent) : M unit :=
  λ st, (tt, st, [SocketTo socket_id room ev]).

(** Sockets that receive a send, given the adapter at the time of the send. *)
Definition recipients (ad : gmap string (gset string)) (e : Emit) : list string :=
  match e with
  | SocketEmit socket_id _ => [socket_id]
  | SocketTo socket_id room _ =>
      elements (default ∅ (ad !! room) ∖ {[socket_id]})
  end.

Definition emit_event (e : Emit) : OutEvent :=
  match e with SocketEmit _ ev | SocketTo _ _ ev => ev end.

(** ** Room code generator

    [Math.random().toString(36).substring(2, 8).toUpperCase()].  The
    argument [rnd] is the text [Math.random().toString(36)] of the random
    draw: ["0"] for the draw [0], otherwise ["0."] followed by the
    base-36 digits of the fraction (["0.i"] for the draw [0.5]). *)
Definition generateRoomCode (rnd : string) : string :=
  JsString.toUpperCase (JsString.substring 2 8 rnd).

(** Shape of [Math.random().toString(36)] for a draw in [[0, 1)]. *)
Definition radix36_text (rnd : string) : Prop :=
  rnd = "0" ∨
  ∃ ds, rnd = String.append "0." ds ∧ ds ≠ EmptyString ∧ JsString.forallb JsString.is_radix36_digit ds = true.

(** ** Event handlers *)

(** [socket.on('create-room', (userData) => ...)].  [rnd] is the text of
    the random draw inside [generateRoomCode()], [now] is [Date.now()]. *)
Definition create_room (socket_id : string) (userData_name : string)
    (rnd : string) (now : Z) : M unit :=
  let roomCode := generateRoomCode rnd in
  let room := mkRoom roomCode socket_id JsMap.empty now in
  let room :=
    mkRoom (room_code room) (room_host room)
      (JsMap.set socket_id (mkParticipant socket_id userData_name true) (room_users room))
      (room_createdAt room) in
  rooms_set roomCode room ;;
  users_set socket_id (mkUserEntry roomCode userData_name) ;;
  socket_join socket_id roomCode ;;
  socket_emit socket_id
    (RoomCreated roomCode true (JsMap.values (room_users room))).

(** [socket.on('join-room', (data) => ...)].  [room.users.set] mutates
    the object held by [rooms] under [roomCode]; the embedding writes the
    updated room back under that key. *)
Definition join_room (socket_id : string) (roomCode name : string) : M unit :=
  room ← rooms_get roomCode ;
  match room with
  | None => socket_emit socket_id (Error "Room not found")
  | Some room =>
      if (4 <=? JsMap.size (room_users room))%nat
      then socket_emit socket_id (Error "Room is full")
      else
        let room :=
          mkRoom (room_code room) (room_host room)
            (JsMap.set socket_id (mkParticipant socket_id name false) (room_users room))
            (room_createdAt room) in
        rooms_set roomCode room ;;
        users_set socket_id (mkUserEntry roomCode name) ;;
        socket_join socket_id roomCode ;;
        let userList := JsMap.values (room_users room) in
        socket_to socket_id roomCode (UserJoined socket_id name userList) ;;
        socket_emit socket_id (RoomJoined roomCode userList false)
  end.

(** [socket.on('offer' | 'answer' | 'ice-candidate', (data) => ...)]. *)
Definition offer (socket_id : string) (target : string) (data_offer : Payload) : M unit :=
  socket_to socket_id target (Offer data_offer socket_id).

Definition answer (socket_id : string) (target : string) (data_answer : Payload) : M unit :=
  socket_to socket_id target (Answer data_answer socket_id).

Definition ice_candidate (socket_id : string) (target : string) (data_candidate : Payload) : M unit :=
  socket_to socket_id target (IceCandidate data_candidate socket_id).

(** [socket.on('translation-audio', (data) => ...)]. *)
Definition translation_audio (socket_id : string) (audio : Payload) (language : string) : M unit :=
  user ← users_get socket_id ;
  match user with
  | Some user =>
      socket_to socket_id (user_roomCode user) (TranslationAudio audio language socket_id)
  | None => mret tt
  end.

(** [socket.on('disconnect', () => ...)]. *)
Definition disconnect (socket_id : string) : M unit :=
  user ← users_get socket_id ;
  match user with
  | Some user =>
      room ← rooms_get (user_roomCode user) ;
      match room with
      | Some room =>
          let room :=
            mkRoom (room_code room) (room_host room)
              (JsMap.delete socket_id (room_users room)) (room_createdAt room) in
          rooms_set (user_roomCode user) room ;;
          socket_to socket_id (user_roomCode user)
            (UserLeft socket_id (JsMap.values (room_users room))) ;;
          if (JsMap.size (room_users room) =? 0)%nat
          then rooms_delete (user_roomCode user)
          else mret tt
      | None => mret tt
      end ;;
      users_delete socket_id
  | None => mret tt
  end.

(** ** The server as a transition system *)

(** What reaches the server: a socket connecting, the client events with
    their fields, and the transport closing a socket. *)
Inductive Event :=
| Connection (socket_id : string)
| CreateRoom (socket_id : string) (name : string) (rnd : string) (now : Z)
| JoinRoom (socket_id : string) (roomCode name : string)
| OfferEv (socket_id : string) (target : string) (offer : Payload)
| AnswerEv (socket_id : string) (target : string) (answer : Payload)
| IceCandidateEv (socket_id : string) (target : string) (candidate : Payload)
| TranslationAudioEv (socket_id : string) (audio : Payload) (language : string)
| Disconnect (socket_id : string).

Definition event_socket (e : Event) : string :=
  match e with
  | Connection s | CreateRoom s _ _ _ | JoinRoom s _ _ | OfferEv s _ _
  | AnswerEv s _ _ | IceCandidateEv s _ _ | TranslationAudioEv s _ _
  | Disconnect s => s
  end.

(** On connect the socket enters the room named by its id; on close it has
    left all its rooms by the time the [disconnect] listener runs. *)
Definition transport_connect (socket_id : string) : M unit :=
  socket_join socket_id socket_id.

Definition transport_close (socket_id : string) : M unit :=
  λ st, (tt, mkState (rooms st) (users st) (adapter_del_all socket_id (sio_rooms st)), []).

Definition handle (e : Event) : M unit :=
  match e with
  | Connection s => transport_connect s
  | CreateRoom s name rnd now => create_room s name rnd now
  | JoinRoom s roomCode name => join_room s roomCode name
  | OfferEv s target o => offer s target o
  | AnswerEv s target a => answer s target a
  | IceCandidateEv s target c => ice_candidate s target c
  | TranslationAudioEv s audio language => translation_audio s audio language
  | Disconnect s => transport_close s ;; disconnect s
  end.

Definition step (e : Event) (st : State) : State * list Emit := exec (handle e) st.

(** Events are handled one at a time, each to completion. *)
Fixpoint run (evs : list Event) (st : State) : State * list Emit :=
  match evs with
  | [] => (st, [])
  | e :: evs' =>
      let '(st1, out1) := step e st in
      let '(st2, out2) := run evs' st1 in
      (st2, out1 ++ out2)
  end.

Definition state_after (evs : list Event) : State := (run evs init).1.

(** ** Rooms the handlers store *)

(** The room a successful join leaves under [roomCode]. *)
Definition joined (socket_id name : string) (room : Room) : Room :=
  mkRoom (room_code room) (room_host room)
    (JsMap.set socket_id (mkParticipant socket_id name false) (room_users room))
    (room_createdAt room).

(** The room a create-room stores. *)
Definition created (socket_id name : string) (roomCode : string) (now : Z) : Room :=
  mkRoom roomCode socket_id [(socket_id, mkParticipant socket_id name true)] now.

(** The room a disconnect leaves behind while members remain. *)
Definition left (socket_id : string) (room : Room) : Room :=
  mkRoom (room_code room) (room_host room)
    (JsMap.delete socket_id (room_users room)) (room_createdAt room).

(** ** The step relation on the two stores

    What an event does to [rooms] and [users], case by case; every
    invariant below is proved by inversion on this relation. *)

Inductive store_step (st : State) : Event → State → Prop :=
| ss_idle e st' :
    rooms st' = rooms st → users st' = users st →
    store_step st e st'
| ss_create s name rnd now st' :
    rooms st' = <[generateRoomCode rnd := created s name (generateRoomCode rnd) now]> (rooms st) →
    users st' = <[s := mkUserEntry (generateRoomCode rnd) name]> (users st) →
    store_step st (CreateRoom s name rnd now) st'
| ss_join s roomCode name room st' :
    rooms st !! roomCode = Some room →
    JsMap.size (room_users room) < 4 →
    rooms st' = <[roomCode := joined s name room]> (rooms st) →
    users st' = <[s := mkUserEntry roomCode name]> (users st) →
    store_step st (JoinRoom s roomCode name) st'
| ss_leave_no_room s u st' :
    users st !! s = Some u →
    rooms st !! user_roomCode u = None →
    rooms st' = rooms st →
    users st' = delete s (users st) →
    store_step st (Disconnect s) st'
| ss_leave_last s u room st' :
    users st !! s = Some u →
    rooms st !! user_roomCode u = Some room →
    JsMap.size (JsMap.delete s (room_users room)) = 0 →
    rooms st' = delete (user_roomCode u) (rooms st) →
    users st' = delete s (users st) →
    store_step st (Disconnect s) st'
| ss_leave s u room st' :
    users st !! s = Some u →
    rooms st !! user_roomCode u = Some room →
    JsMap.size (JsMap.delete s (room_users room)) ≠ 0 →
    rooms st' = <[user_roomCode u := left s room]> (rooms st) →
    users st' = delete s (users st) →
    store_step st (Disconnect s) st'.

(** ** Invariants of the room store *)

(** Number of members of a room whose [isHost] flag is set. *)
Definition host_count (room : Room) : nat :=
  length (List.filter isHost (JsMap.values (room_users room))).

(** Size bounds of one room. *)
Definition room_bounded (room : Room) : Prop :=
  1 ≤ JsMap.size (room_users room) ≤ MAX_ROOM_SIZE.

(** A stored room is a genuine record of the source: it sits under its own
    code, its member map has each key once, and a member is filed under
    its own id. *)
Definition room_wf (code : string) (room : Room) : Prop :=
  room_code room = code ∧
  NoDup (JsMap.keys (room_users room)) ∧
  ∀ k p, JsMap.get k (room_users room) = Some p → id p = k.

(** Only the socket recorded as [host] carries the host flag. *)
Definition room_hosts (room : Room) : Prop :=
  host_count room ≤ 1 ∧
  ∀ k p, JsMap.get k (room_users room) = Some p → isHost p = true → k = room_host room.

Definition room_inv (code : string) (room : Room) : Prop :=
  room_bounded room ∧ room_wf code room ∧ room_hosts room.

Definition rooms_inv (st : State) : Prop :=
  ∀ code room, rooms st !! code = Some room → room_inv code room.

(** ** Agreement between the registry and the room store *)

(** A connection is a member of the room stored under [code]. *)
Definition member_of (c code : string) (st : State) : Prop :=
  ∃ room, rooms st !! code = Some room ∧ is_Some (JsMap.get c (room_users room)).








(** ** Statements about hosts, names and stale memberships *)



(** A [create-room] with an empty name is turned down with an error and
    no change of state. *)
Definition empty_name_rejected : Prop :=
  ∀ st s rnd now,
    ∃ message, exec (create_room s EmptyString rnd now) st = (st, [SocketEmit s (Error message)]).

(** A code as the specification describes it: six uppercase alphanumeric
    characters, not the code of a live room. *)
Definition code_as_specified (st : State) (code : string) : Prop :=
  String.length code = 6 ∧
  JsString.forallb JsString.is_upper_alnum code = true ∧
  rooms st !! code = None.

(** The event moves socket [s] into room [B]: a [join-room] for a live
    room with a free place, or a [create-room] that draws the code [B]. *)
Definition moves_to (s B : string) (st : State) (e : Event) : Prop :=
  match e with
  | JoinRoom s' roomCode _ =>
      s' = s ∧ roomCode = B ∧
      ∃ roomB, rooms st !! B = Some roomB ∧ JsMap.size (room_users roomB) < 4
  | CreateRoom s' _ rnd _ => s' = s ∧ generateRoomCode rnd = B
  | _ => False
  end.

(** The event is a [create-room] that draws the code [A] again. *)
Definition redraws (A : string) (e : Event) : Prop :=
  match e with
  | CreateRoom _ _ rnd _ => generateRoomCode rnd = A
  | _ => False
  end.


(** ** Delivery of sends *)

(** The pairs (receiving socket, event) a list of sends amounts to. *)
Definition deliveries (ad : gmap string (gset string)) (out : list Emit)
    : list (string * OutEvent) :=
  flat_map (λ e, List.map (λ r, (r, emit_event e)) (recipients ad e)) out.

(** No send of the list is an [error] event. *)
Definition no_error (out : list Emit) : Prop :=
  ∀ e message, e ∈ out → emit_event e ≠ Error message.

(** ** Scenarios *)

(** Alice opens a room; the draw renders as the code ABC123. *)
Definition alice_opens : list Event :=
  [Connection "s1"; CreateRoom "s1" "Alice" "0.abc123" 0].

(** Three more people join Alice, then a fifth socket connects. *)
Definition full_house : list Event :=
  alice_opens ++
  [Connection "s2"; JoinRoom "s2" "ABC123" "Bob";
   Connection "s3"; JoinRoom "s3" "ABC123" "Cat";
   Connection "s4"; JoinRoom "s4" "ABC123" "Dan";
   Connection "s5"].

Definition full_room : Room :=
  joined "s4" "Dan" (joined "s3" "Cat" (joined "s2" "Bob" (created "s1" "Alice" "ABC123" 0))).



(** Alice and Bob each open a room. *)
Definition two_rooms : list Event :=
  alice_opens ++ [Connection "s2"; CreateRoom "s2" "Bob" "0.xyz789" 1].

(** Two draws that agree on their first six digits. *)
Definition same_code_twice : list Event :=
  alice_opens ++ [Connection "s2"; CreateRoom "s2" "Bob" "0.abc123zzz" 1].

(** ** Sockets and socket.io rooms *)

(** The socket sits in the socket.io room of that name. *)
Definition in_sio_room (c room : string) (ad : gmap string (gset string)) : Prop :=
  c ∈ default ∅ (ad !! room).

(** Every registered connection sits in the socket.io room named by the
    room code of its registry entry. *)
Definition registered_joined (st : State) : Prop :=
  ∀ c u, users st !! c = Some u → in_sio_room c (user_roomCode u) (sio_rooms st).

(** The user list a send carries is the member list the store holds for
    that room once the event is handled; a [user-left] for a room that is
    gone carries the empty list. *)
Definition snapshot_ok (st' : State) (e : Emit) : Prop :=
  match e with
  | SocketEmit _ (RoomCreated c _ us)
  | SocketEmit _ (RoomJoined c us _)
  | SocketTo _ c (UserJoined _ _ us) =>
      ∃ room, rooms st' !! c = Some room ∧ us = JsMap.values (room_users room)
  | SocketTo _ c (UserLeft _ us) =>
      match rooms st' !! c with
      | Some room => us = JsMap.values (room_users room)
      | None => us = []
      end
  | _ => True
  end.

(** Bob has joined Alice. *)
Definition alice_and_bob : list Event :=
  alice_opens ++ [Connection "s2"; JoinRoom "s2" "ABC123" "Bob"].

(** A [join-room] for this code is carried out: the room is live and has
    a free place. *)
Definition joins_room (st : State) (roomCode : string) : bool :=
  match rooms st !! roomCode with
  | Some room => negb (4 <=? JsMap.size (room_users room))
  | None => false
  end.

(** The adapter an event leaves behind. *)
Definition adapter_after (e : Event) (st : State) : gmap string (gset string) :=
  match e with
  | Connection s => adapter_add s s (sio_rooms st)
  | CreateRoom s _ rnd _ => adapter_add s (generateRoomCode rnd) (sio_rooms st)
  | JoinRoom s roomCode _ =>
      if joins_room st roomCode then adapter_add s roomCode (sio_rooms st)
      else sio_rooms st
  | Disconnect s => adapter_del_all s (sio_rooms st)
  | _ => sio_rooms st
  end.

(** * The client

    The parts of the browser client that talk to the server: the home
    screen form ([HomeScreen]), the participant list of the call screen
    ([VideoCall]), the peer table ([WebRTCManager]) and the translation
    panel ([VoiceTranslation]). *)

(** ** Text typed into forms

    [trim] and the blank test, for ASCII text: the white space of
    JavaScript below code 128 is TAB, LF, VT, FF, CR and space. *)

Module JsText.

Definition is_white_space (c : ascii) : bool :=
  let n := nat_of_ascii c in
  ((9 <=? n) && (n <=? 13)) || (n =? 32).

Definition is_ascii (c : ascii) : bool := nat_of_ascii c <? 128.

Definition ascii_text (s : string) : Prop := JsString.forallb is_ascii s = true.

(** [s.trimStart()]. *)
Fixpoint trimStart (s : string) : string :=
  match s with
  | EmptyString => EmptyString
  | String c s' => if is_white_space c then trimStart s' else s
  end.

(** [s.trimEnd()]. *)
Fixpoint trimEnd (s : string) : string :=
  match s with
  | EmptyString => EmptyString
  | String c s' =>
      match trimEnd s' with
      | EmptyString => if is_white_space c then EmptyString else String c EmptyString
      | String c' r => String c (String c' r)
      end
  end.

(** [s.trim()]. *)
Definition trim (s : string) : string := trimEnd (trimStart s).

(** [!s] for a string: only the empty string is falsy. *)
Definition is_empty (s : string) : bool :=
  match s with EmptyString => true | String _ _ => false end.

End JsText.

(** ** Home screen *)

(** The state the two button handlers read and write: the [name] and
    [roomCode] inputs, [loading], [error], and the [socket] (by its id,
    [None] for [null]) and [connected] flag of the socket context. *)
Record HomeScreen := mkHomeScreen {
  home_name : string;
  home_roomCode : string;
  home_loading : bool;
  home_error : string;
  home_socket : option string;
  home_connected : bool
}.

(** What the home screen emits on its socket. *)
Inductive ClientEmit :=
| EmitCreateRoom (name : string)
| EmitJoinRoom (name roomCode : string).

Definition setError (message : string) (h : HomeScreen) : HomeScreen :=
  mkHomeScreen (home_name h) (home_roomCode h) (home_loading h) message
    (home_socket h) (home_connected h).

Definition setLoading (b : bool) (h : HomeScreen) : HomeScreen :=
  mkHomeScreen (home_name h) (home_roomCode h) b (home_error h)
    (home_socket h) (home_connected h).

(** [!socket || !connected]. *)
Definition not_connected (h : HomeScreen) : bool :=
  match home_socket h with
  | None => true
  | Some _ => negb (home_connected h)
  end.

(** [handleCreateRoom]. *)
Definition handleCreateRoom (h : HomeScreen) : HomeScreen * list ClientEmit :=
  if JsText.is_empty (JsText.trim (home_name h))
  then (setError "Please enter your name" h, [])
  else if not_connected h
  then (setError "Not connected to server" h, [])
  else (setLoading true (setError EmptyString h),
        [EmitCreateRoom (JsText.trim (home_name h))]).

(** [handleJoinRoom]. *)
Definition handleJoinRoom (h : HomeScreen) : HomeScreen * list ClientEmit :=
  if JsText.is_empty (JsText.trim (home_name h))
  then (setError "Please enter your name" h, [])
  else if JsText.is_empty (JsText.trim (home_roomCode h))
  then (setError "Please enter room code" h, [])
  else if not_connected h
  then (setError "Not connected to server" h, [])
  else (setLoading true (setError EmptyString h),
        [EmitJoinRoom (JsText.trim (home_name h))
           (JsString.toUpperCase (JsText.trim (home_roomCode h)))]).

(** The server event a client emit becomes, on the socket with id [sid];
    the draw and the clock of a [create-room] are the server's. *)
Definition server_event (sid : string) (rnd : string) (now : Z) (e : ClientEmit) : Event :=
  match e with
  | EmitCreateRoom name => CreateRoom sid name rnd now
  | EmitJoinRoom name roomCode => JoinRoom sid roomCode name
  end.

(** White space only. *)
Definition blank (s : string) : Prop := JsString.forallb JsText.is_white_space s = true.

(** ** Call screen: the participant list *)

(** [participants.find(p => p.id === socket?.id)]; [socket_id] is [None]
    when there is no socket. *)
Definition currentUser (participants : list Participant) (socket_id : option string)
    : option Participant :=
  List.find (λ p, bool_decide (Some (id p) = socket_id)) participants.

(** [participants.filter(p => p.id !== socket?.id)]. *)
Definition otherParticipants (participants : list Participant) (socket_id : option string)
    : list Participant :=
  List.filter (λ p, negb (bool_decide (Some (id p) = socket_id))) participants.

(** ** The peer table ([WebRTCManager])

    The manager keeps the local media stream and a [Map] from user id to
    peer object.  Of a peer the table records the role it was created
    with and the signals handed to it by [peer.signal], oldest first;
    what a peer does on its own afterwards is not part of the model.  Of
    the stream it records the [enabled] flag of each audio and video
    track, in the order of [getAudioTracks()] and [getVideoTracks()]. *)

Record PeerInstance := mkPeer {
  peer_initiator : bool;
  peer_signalled : list Payload
}.

Record MediaStream := mkStream {
  audioTracks : list bool;
  videoTracks : list bool
}.

Record WebRTCManager := mkManager {
  localStream : option MediaStream;
  peers : gmap string PeerInstance
}.

(** [createPeerConnection(userId, initiator)]. *)
Definition createPeerConnection (userId : string) (initiator : bool)
    (m : WebRTCManager) : WebRTCManager :=
  match peers m !! userId with
  | Some _ => m
  | None =>
      match localStream m with
      | None => m
      | Some _ =>
          mkManager (localStream m) (<[userId := mkPeer initiator []]> (peers m))
      end
  end.

(** [peer.signal(data)] on the peer stored for [userId], if there is one. *)
Definition signal_peer (userId : string) (data : Payload) (m : WebRTCManager)
    : WebRTCManager :=
  match peers m !! userId with
  | Some peer =>
      mkManager (localStream m)
        (<[userId := mkPeer (peer_initiator peer) (peer_signalled peer ++ [data])]> (peers m))
  | None => m
  end.

(** [handleOffer(offer, callerId)]. *)
Definition handleOffer (offer : Payload) (callerId : string) (m : WebRTCManager)
    : WebRTCManager :=
  signal_peer callerId offer (createPeerConnection callerId false m).

(** [handleAnswer(answer, answererId)]. *)
Definition handleAnswer (answer : Payload) (answererId : string) (m : WebRTCManager)
    : WebRTCManager :=
  signal_peer answererId answer m.

(** [handleIceCandidate(candidate, senderId)]. *)
Definition handleIceCandidate (candidate : Payload) (senderId : string) (m : WebRTCManager)
    : WebRTCManager :=
  signal_peer senderId candidate m.

(** [toggleMute()]: flips the first audio track and returns the muted
    state, [false] when there is no stream or no audio track. *)
Definition toggleMute (m : WebRTCManager) : WebRTCManager * bool :=
  match localStream m with
  | Some stream =>
      match audioTracks stream with
      | enabled :: rest =>
          (mkManager (Some (mkStream (negb enabled :: rest) (videoTracks stream))) (peers m),
           negb (negb enabled))
      | [] => (m, false)
      end
  | None => (m, false)
  end.

(** [toggleVideo()]. *)
Definition toggleVideo (m : WebRTCManager) : WebRTCManager * bool :=
  match localStream m with
  | Some stream =>
      match videoTracks stream with
      | enabled :: rest =>
          (mkManager (Some (mkStream (audioTracks stream) (negb enabled :: rest))) (peers m),
           negb (negb enabled))
      | [] => (m, false)
      end
  | None => (m, false)
  end.

(** [getAudioState()] and [getVideoState()]. *)
Definition getAudioState (m : WebRTCManager) : bool :=
  match localStream m with
  | Some stream => match audioTracks stream with enabled :: _ => enabled | [] => false end
  | None => false
  end.

Definition getVideoState (m : WebRTCManager) : bool :=
  match localStream m with
  | Some stream => match videoTracks stream with enabled :: _ => enabled | [] => false end
  | None => false
  end.

(** [removePeerConnection(userId)]. *)
Definition removePeerConnection (userId : string) (m : WebRTCManager) : WebRTCManager :=
  match peers m !! userId with
  | Some _ => mkManager (localStream m) (delete userId (peers m))
  | None => m
  end.

(** [cleanup()]: the tracks are stopped and the stream dropped, every
    peer is destroyed and the table cleared. *)
Definition cleanup (m : WebRTCManager) : WebRTCManager := mkManager None ∅.

(** The calls the call screen makes on a manager once media is set up. *)
Inductive ManagerCall :=
| CallCreatePeerConnection (userId : string) (initiator : bool)
| CallHandleOffer (offer : Payload) (callerId : string)
| CallHandleAnswer (answer : Payload) (answererId : string)
| CallHandleIceCandidate (candidate : Payload) (senderId : string)
| CallToggleMute
| CallToggleVideo
| CallRemovePeerConnection (userId : string)
| CallCleanup.

Definition call (c : ManagerCall) (m : WebRTCManager) : WebRTCManager :=
  match c with
  | CallCreatePeerConnection userId initiator => createPeerConnection userId initiator m
  | CallHandleOffer offer callerId => handleOffer offer callerId m
  | CallHandleAnswer answer answererId => handleAnswer answer answererId m
  | CallHandleIceCandidate candidate senderId => handleIceCandidate candidate senderId m
  | CallToggleMute => (toggleMute m).1
  | CallToggleVideo => (toggleVideo m).1
  | CallRemovePeerConnection userId => removePeerConnection userId m
  | CallCleanup => cleanup m
  end.

Definition calls (cs : list ManagerCall) (m : WebRTCManager) : WebRTCManager :=
  fold_left (λ m c, call c m) cs m.

(** ** The translation panel ([VoiceTranslation]) *)






(** ** Relays and connections *)



(** * Proofs *)

(** ** Facts about the insertion-ordered map *)

Module JsMapFacts.
Section Facts.
Context {V : Type}.
Implicit Types (m : JsMap.t V) (k : string) (v : V).

Lemma get_set m k k' v :
  JsMap.get k' (JsMap.set k v m) = if decide (k = k') then Some v else JsMap.get k' m.
Proof.
  induction m as [|[k0 v0] m IH]; simpl.
  - destruct (decide (k = k')); reflexivity.
  - destruct (decide (k0 = k)) as [->|Hk0]; simpl.
    + destruct (decide (k = k')); reflexivity.
    + rewrite IH. destruct (decide (k0 = k')) as [->|]; [|reflexivity].
      destruct (decide (k = k')); congruence.
Qed.

Lemma get_set_eq m k v : JsMap.get k (JsMap.set k v m) = Some v.
Proof. rewrite get_set. destruct (decide (k = k)); congruence. Qed.


Lemma get_delete m k k' :
  JsMap.get k' (JsMap.delete k m) = if decide (k = k') then None else JsMap.get k' m.
Proof.
  induction m as [|[k0 v0] m IH]; simpl.
  - destruct (decide (k = k')); reflexivity.
  - destruct (decide (k0 = k)) as [->|Hk0]; simpl.
    + rewrite IH. destruct (decide (k = k')); reflexivity.
    + rewrite IH. destruct (decide (k0 = k')) as [->|]; [|reflexivity].
      destruct (decide (k = k')); congruence.
Qed.



Lemma delete_absent m k : JsMap.get k m = None → JsMap.delete k m = m.
Proof.
  induction m as [|[k0 v0] m IH]; simpl; [reflexivity|].
  destruct (decide (k0 = k)); [discriminate|].
  intros H. f_equal. auto.
Qed.


Lemma size_set_lower m k v : JsMap.size m ≤ JsMap.size (JsMap.set k v m).
Proof.
  unfold JsMap.size. induction m as [|[k0 v0] m IH]; simpl; [lia|].
  destruct (decide (k0 = k)); simpl; lia.
Qed.

Lemma size_set_upper m k v : JsMap.size (JsMap.set k v m) ≤ S (JsMap.size m).
Proof.
  unfold JsMap.size. induction m as [|[k0 v0] m IH]; simpl; [lia|].
  destruct (decide (k0 = k)); simpl; lia.
Qed.

Lemma size_set_pos m k v : 1 ≤ JsMap.size (JsMap.set k v m).
Proof.
  unfold JsMap.size. destruct m as [|[k0 v0] m]; simpl; [lia|].
  destruct (decide (k0 = k)); simpl; lia.
Qed.

Lemma size_delete m k : JsMap.size (JsMap.delete k m) ≤ JsMap.size m.
Proof.
  unfold JsMap.size. induction m as [|[k0 v0] m IH]; simpl; [lia|].
  destruct (decide (k0 = k)); simpl; lia.
Qed.

(** A genuine [Map] has each key once; [set] and [delete] keep it so. *)
Lemma keys_set_subseteq m k v k' :
  k' ∈ JsMap.keys (JsMap.set k v m) → k' = k ∨ k' ∈ JsMap.keys m.
Proof.
  unfold JsMap.keys. induction m as [|[k0 v0] m IH]; simpl.
  - rewrite list_elem_of_singleton. auto.
  - destruct (decide (k0 = k)) as [->|]; simpl; rewrite !elem_of_cons.
    + tauto.
    + intros [->|H]; [tauto|]. destruct (IH H); tauto.
Qed.

Lemma keys_delete_subseteq m k k' :
  k' ∈ JsMap.keys (JsMap.delete k m) → k' ∈ JsMap.keys m.
Proof.
  unfold JsMap.keys. induction m as [|[k0 v0] m IH]; simpl; [tauto|].
  destruct (decide (k0 = k)) as [->|]; simpl; rewrite !elem_of_cons; [tauto|].
  intros [->|H]; tauto.
Qed.

Lemma NoDup_keys_set m k v :
  NoDup (JsMap.keys m) → NoDup (JsMap.keys (JsMap.set k v m)).
Proof.
  induction m as [|[k0 v0] m IH]; simpl.
  - intros _. apply NoDup_singleton.
  - unfold JsMap.keys in *. simpl. rewrite NoDup_cons. intros [Hnin Hnd].
    destruct (decide (k0 = k)) as [->|Hne]; simpl; rewrite NoDup_cons.
    + tauto.
    + split; [|auto]. intros Hin. apply keys_set_subseteq in Hin.
      destruct Hin; [congruence|tauto].
Qed.

Lemma NoDup_keys_delete m k :
  NoDup (JsMap.keys m) → NoDup (JsMap.keys (JsMap.delete k m)).
Proof.
  induction m as [|[k0 v0] m IH]; simpl; [tauto|].
  unfold JsMap.keys in *. simpl. rewrite NoDup_cons. intros [Hnin Hnd].
  destruct (decide (k0 = k)) as [->|Hne]; simpl; [auto|].
  rewrite NoDup_cons. split; [|auto].
  intros Hin. apply keys_delete_subseteq in Hin. tauto.
Qed.

End Facts.
End JsMapFacts.

(** ** What each handler does to the state, in closed form *)

Ltac unfold_handler :=
  unfold step, handle, exec, create_room, join_room, disconnect, offer, answer,
    ice_candidate, translation_audio, transport_connect, transport_close,
    rooms_get, rooms_set, rooms_delete, users_get, users_set, users_delete,
    socket_join, socket_emit, socket_to, mbind, M_bind, mret, M_ret;
  cbn -[Nat.leb Nat.eqb JsMap.size].

Section HandlerEquations.
Implicit Types (st : State) (s : string).

Lemma exec_create_room st s name rnd now :
  exec (create_room s name rnd now) st =
    (mkState (<[generateRoomCode rnd := created s name (generateRoomCode rnd) now]> (rooms st))
             (<[s := mkUserEntry (generateRoomCode rnd) name]> (users st))
             (adapter_add s (generateRoomCode rnd) (sio_rooms st)),
     [SocketEmit s (RoomCreated (generateRoomCode rnd) true [mkParticipant s name true])]).
Proof. reflexivity. Qed.

Lemma exec_join_room_missing st s roomCode name :
  rooms st !! roomCode = None →
  exec (join_room s roomCode name) st = (st, [SocketEmit s (Error "Room not found")]).
Proof. intros H. unfold_handler. rewrite H. reflexivity. Qed.

Lemma exec_join_room_full st s roomCode name room :
  rooms st !! roomCode = Some room →
  4 ≤ JsMap.size (room_users room) →
  exec (join_room s roomCode name) st = (st, [SocketEmit s (Error "Room is full")]).
Proof.
  intros H Hsz. unfold_handler. rewrite H.
  destruct (Nat.leb_spec 4 (JsMap.size (room_users room))); [reflexivity | lia].
Qed.

Lemma exec_join_room_ok st s roomCode name room :
  rooms st !! roomCode = Some room →
  JsMap.size (room_users room) < 4 →
  exec (join_room s roomCode name) st =
    (mkState (<[roomCode := joined s name room]> (rooms st))
             (<[s := mkUserEntry roomCode name]> (users st))
             (adapter_add s roomCode (sio_rooms st)),
     [SocketTo s roomCode (UserJoined s name (JsMap.values (room_users (joined s name room))));
      SocketEmit s (RoomJoined roomCode (JsMap.values (room_users (joined s name room))) false)]).
Proof.
  intros H Hsz. unfold_handler. rewrite H.
  destruct (Nat.leb_spec 4 (JsMap.size (room_users room))); [lia | reflexivity].
Qed.

Lemma exec_disconnect_unknown st s :
  users st !! s = None → exec (disconnect s) st = (st, []).
Proof. intros H. unfold_handler. rewrite H. reflexivity. Qed.

Lemma exec_disconnect_no_room st s u :
  users st !! s = Some u →
  rooms st !! user_roomCode u = None →
  exec (disconnect s) st =
    (mkState (rooms st) (delete s (users st)) (sio_rooms st), []).
Proof. intros H1 H2. unfold_handler. rewrite H1. cbn. rewrite H2. reflexivity. Qed.

Lemma exec_disconnect_last st s u room :
  users st !! s = Some u →
  rooms st !! user_roomCode u = Some room →
  JsMap.size (JsMap.delete s (room_users room)) = 0 →
  exec (disconnect s) st =
    (mkState (delete (user_roomCode u) (rooms st)) (delete s (users st)) (sio_rooms st),
     [SocketTo s (user_roomCode u) (UserLeft s [])]).
Proof.
  intros H1 H2 H3. unfold_handler. rewrite H1. cbn -[Nat.eqb JsMap.size]. rewrite H2. cbn -[Nat.eqb JsMap.size].
  destruct (JsMap.delete s (room_users room)) eqn:E; [|discriminate].
  cbn. rewrite delete_insert_eq. reflexivity.
Qed.

Lemma exec_disconnect_others st s u room :
  users st !! s = Some u →
  rooms st !! user_roomCode u = Some room →
  JsMap.size (JsMap.delete s (room_users room)) ≠ 0 →
  exec (disconnect s) st =
    (mkState (<[user_roomCode u := left s room]> (rooms st)) (delete s (users st)) (sio_rooms st),
     [SocketTo s (user_roomCode u) (UserLeft s (JsMap.values (room_users (left s room))))]).
Proof.
  intros H1 H2 H3. unfold_handler. rewrite H1. cbn -[Nat.eqb JsMap.size]. rewrite H2. cbn -[Nat.eqb JsMap.size].
  destruct (Nat.eqb_spec (JsMap.size (JsMap.delete s (room_users room))) 0); [lia | reflexivity].
Qed.

Lemma exec_translation_audio_state st s audio language :
  (exec (translation_audio s audio language) st).1 = st.
Proof. unfold_handler. destruct (users st !! s); reflexivity. Qed.

(** The transport's part of a close touches the adapter only. *)
Lemma step_disconnect st s :
  step (Disconnect s) st =
    exec (disconnect s) (mkState (rooms st) (users st) (adapter_del_all s (sio_rooms st))).
Proof.
  unfold step, handle, exec, mbind, M_bind, transport_close.
  destruct (disconnect s _) as [[[] st'] out]. reflexivity.
Qed.

End HandlerEquations.

(** ** The handlers follow the step relation *)

Lemma step_store_step e st : store_step st e (step e st).1.
Proof.
  destruct e as [s|s name rnd now|s roomCode name|s t o|s t a|s t c|s au la|s].
  - apply ss_idle; reflexivity.
  - apply ss_create; reflexivity.
  - unfold step, handle.
    destruct (rooms st !! roomCode) as [room|] eqn:Hroom.
    + destruct (Nat.lt_ge_cases (JsMap.size (room_users room)) 4) as [Hlt|Hge].
      * rewrite (exec_join_room_ok _ _ _ _ _ Hroom Hlt).
        eapply ss_join; eauto.
      * rewrite (exec_join_room_full _ _ _ _ _ Hroom Hge).
        apply ss_idle; reflexivity.
    + rewrite (exec_join_room_missing _ _ _ _ Hroom). apply ss_idle; reflexivity.
  - apply ss_idle; reflexivity.
  - apply ss_idle; reflexivity.
  - apply ss_idle; reflexivity.
  - unfold step, handle. rewrite exec_translation_audio_state.
    apply ss_idle; reflexivity.
  - rewrite step_disconnect.
    set (st0 := mkState (rooms st) (users st) (adapter_del_all s (sio_rooms st))).
    destruct (users st !! s) as [u|] eqn:Hu.
    + destruct (rooms st !! user_roomCode u) as [room|] eqn:Hroom.
      * destruct (decide (JsMap.size (JsMap.delete s (room_users room)) = 0)) as [Hz|Hnz].
        -- rewrite (exec_disconnect_last st0 s u room Hu Hroom Hz).
           eapply ss_leave_last; eauto.
        -- rewrite (exec_disconnect_others st0 s u room Hu Hroom Hnz).
           eapply ss_leave; eauto.
      * rewrite (exec_disconnect_no_room st0 s u Hu Hroom).
        eapply ss_leave_no_room; eauto.
    + rewrite (exec_disconnect_unknown st0 s Hu). apply ss_idle; reflexivity.
Qed.

(** Runs, one event after the other. *)

Lemma run_cons e evs st : (run (e :: evs) st).1 = (run evs (step e st).1).1.
Proof.
  simpl. destruct (step e st) as [st1 out1]. simpl.
  destruct (run evs st1) as [st2 out2]. reflexivity.
Qed.

Lemma run_app evs1 evs2 st :
  (run (evs1 ++ evs2) st).1 = (run evs2 (run evs1 st).1).1.
Proof.
  revert st. induction evs1 as [|e evs1 IH]; intros st; [reflexivity|].
  rewrite <- app_comm_cons, !run_cons. apply IH.
Qed.

Lemma run_snoc evs e st :
  (run (evs ++ [e]) st).1 = (step e (run evs st).1).1.
Proof.
  rewrite run_app. simpl. destruct (step e _) as [st1 out1]. reflexivity.
Qed.

Lemma run_invariant (P : State → Prop) :
  (∀ e st, P st → P (step e st).1) →
  ∀ evs st, P st → P (run evs st).1.
Proof.
  intros Hstep evs. induction evs as [|e evs IH]; intros st HP; [exact HP|].
  rewrite run_cons. apply IH, Hstep, HP.
Qed.

(** ** The room invariant is preserved *)

Section RoomInvariant.

Lemma host_count_set_guest (m : JsMap.t Participant) k p :
  isHost p = false →
  length (List.filter isHost (JsMap.values (JsMap.set k p m)))
    ≤ length (List.filter isHost (JsMap.values m)).
Proof.
  intros Hp. unfold JsMap.values.
  induction m as [|[k0 p0] m IH]; cbn.
  - rewrite Hp. cbn. lia.
  - destruct (decide (k0 = k)); cbn.
    + rewrite Hp. destruct (isHost p0); cbn; lia.
    + destruct (isHost p0); cbn; lia.
Qed.

Lemma host_count_delete (m : JsMap.t Participant) k :
  length (List.filter isHost (JsMap.values (JsMap.delete k m)))
    ≤ length (List.filter isHost (JsMap.values m)).
Proof.
  unfold JsMap.values. induction m as [|[k0 p0] m IH]; cbn; [lia|].
  destruct (decide (k0 = k)); cbn; destruct (isHost p0); cbn; lia.
Qed.

Lemma created_inv s name code now : room_inv code (created s name code now).
Proof.
  split; [|split].
  - unfold room_bounded, MAX_ROOM_SIZE. simpl. lia.
  - split; [reflexivity|]. split.
    + simpl. apply NoDup_singleton.
    + intros k p. simpl. destruct (decide (s = k)); [|discriminate].
      intros [= <-]. assumption.
  - split.
    + unfold host_count. cbn. lia.
    + intros k p. simpl. destruct (decide (s = k)); [|discriminate]. auto.
Qed.

Lemma joined_inv s name code room :
  JsMap.size (room_users room) < 4 →
  room_inv code room → room_inv code (joined s name room).
Proof.
  intros Hlt [[Hlo Hhi] [[Hcode [Hnd Hid]] [Hcnt Hhost]]].
  split; [|split].
  - unfold room_bounded, MAX_ROOM_SIZE in *. simpl.
    pose proof (JsMapFacts.size_set_upper (room_users room) s (mkParticipant s name false)).
    pose proof (JsMapFacts.size_set_lower (room_users room) s (mkParticipant s name false)).
    lia.
  - split; [exact Hcode|]. split.
    + simpl. apply JsMapFacts.NoDup_keys_set, Hnd.
    + intros k p. simpl. rewrite JsMapFacts.get_set.
      destruct (decide (s = k)) as [->|]; [intros [= <-]; reflexivity | apply Hid].
  - split.
    + unfold host_count in *. simpl.
      etransitivity; [apply host_count_set_guest; reflexivity | exact Hcnt].
    + intros k p. simpl. rewrite JsMapFacts.get_set.
      destruct (decide (s = k)) as [->|]; [intros [= <-]; discriminate | apply Hhost].
Qed.

Lemma left_inv s code room :
  JsMap.size (JsMap.delete s (room_users room)) ≠ 0 →
  room_inv code room → room_inv code (left s room).
Proof.
  intros Hnz [[Hlo Hhi] [[Hcode [Hnd Hid]] [Hcnt Hhost]]].
  split; [|split].
  - unfold room_bounded in *. simpl.
    pose proof (JsMapFacts.size_delete (room_users room) s). lia.
  - split; [exact Hcode|]. split.
    + simpl. apply JsMapFacts.NoDup_keys_delete, Hnd.
    + intros k p. simpl. rewrite JsMapFacts.get_delete.
      destruct (decide (s = k)); [discriminate | apply Hid].
  - split.
    + unfold host_count in *. simpl.
      etransitivity; [apply host_count_delete | exact Hcnt].
    + intros k p. simpl. rewrite JsMapFacts.get_delete.
      destruct (decide (s = k)); [discriminate | apply Hhost].
Qed.

Lemma store_step_rooms_inv st e st' :
  store_step st e st' → rooms_inv st → rooms_inv st'.
Proof.
  intros Hstep Hinv code room'.
  destruct Hstep as [e st' Hr _|s name rnd now st' Hr _|s rc name room st' Hroom Hlt Hr _
                    |s u st' _ _ Hr _|s u room st' _ _ _ Hr _|s u room st' _ Hroom Hnz Hr _];
    rewrite Hr.
  - apply Hinv.
  - rewrite lookup_insert. case_decide as Hc.
    + intros [= <-]. subst code. apply created_inv.
    + apply Hinv.
  - rewrite lookup_insert. case_decide as Hc.
    + intros [= <-]. subst code. apply joined_inv; [exact Hlt | exact (Hinv _ _ Hroom)].
    + apply Hinv.
  - apply Hinv.
  - rewrite lookup_delete. case_decide; [discriminate | apply Hinv].
  - rewrite lookup_insert. case_decide as Hc.
    + intros [= <-]. subst code. apply left_inv; [exact Hnz | exact (Hinv _ _ Hroom)].
    + apply Hinv.
Qed.

Lemma rooms_inv_init : rooms_inv init.
Proof. intros code room. unfold init. simpl. rewrite lookup_empty. discriminate. Qed.

Lemma rooms_inv_reachable evs : rooms_inv (state_after evs).
Proof.
  unfold state_after. apply (run_invariant rooms_inv); [|apply rooms_inv_init].
  intros e st. apply (store_step_rooms_inv st e), step_store_step.
Qed.

End RoomInvariant.

(** ** Room size *)

(** C1. After every sequence of events each stored room has between 1
    and [MAX_ROOM_SIZE] = 4 members, and when a disconnect takes the last
    member out of a room, the room is gone from the store in the state
    that same disconnect leaves: no stored room is ever empty. *)
Theorem room_size_invariant (evs : list Event) (code : string) (room : Room)
    (Hlive : rooms (state_after evs) !! code = Some room) :
  1 ≤ JsMap.size (room_users room) ≤ MAX_ROOM_SIZE ∧
  ∀ s u,
    users (state_after evs) !! s = Some u →
    user_roomCode u = code →
    JsMap.size (JsMap.delete s (room_users room)) = 0 →
    rooms (state_after (evs ++ [Disconnect s])) !! code = None.
Proof.
  split.
  - exact (proj1 (rooms_inv_reachable evs code room Hlive)).
  - intros s u Hu <- Hz. unfold state_after in *. rewrite run_snoc, step_disconnect.
    set (st := (run evs init).1) in *.
    rewrite (exec_disconnect_last (mkState (rooms st) (users st) _) s u room Hu Hlive Hz).
    cbn. apply lookup_delete_eq.
Qed.

Lemma room_size_invariant_witness :
  1 ≤ JsMap.size (room_users (created "s1" "Alice" "ABC123" 0)) ≤ MAX_ROOM_SIZE ∧
  ∀ s u,
    users (state_after [Connection "s1"; CreateRoom "s1" "Alice" "0.abc123" 0]) !! s = Some u →
    user_roomCode u = "ABC123" →
    JsMap.size (JsMap.delete s (room_users (created "s1" "Alice" "ABC123" 0))) = 0 →
    rooms (state_after ([Connection "s1"; CreateRoom "s1" "Alice" "0.abc123" 0]
                          ++ [Disconnect s])) !! "ABC123" = None.
Proof.
  apply (room_size_invariant [Connection "s1"; CreateRoom "s1" "Alice" "0.abc123" 0] "ABC123").
  vm_compute. reflexivity.
Defined.

(** ** Rejected joins *)

(** C3. A [join-room] that names a live room with exactly 4 members sends
    one [error] event with message 'Room is full', to the requesting
    socket and to no other, and leaves the whole state (room store,
    registry, adapter) as it was; the requester is not added. *)
Theorem join_full_room_rejected (st : State) (s roomCode name : string) (room : Room)
    (Hlive : rooms st !! roomCode = Some room)
    (Hfull : JsMap.size (room_users room) = 4) :
  exec (join_room s roomCode name) st = (st, [SocketEmit s (Error "Room is full")]) ∧
  deliveries (sio_rooms st) (exec (join_room s roomCode name) st).2
    = [(s, Error "Room is full")] ∧
  rooms (exec (join_room s roomCode name) st).1 !! roomCode = Some room.
Proof.
  assert (Hge : 4 ≤ JsMap.size (room_users room)) by lia.
  rewrite (exec_join_room_full st s roomCode name room Hlive Hge).
  repeat split. exact Hlive.
Qed.

(** C4. A [join-room] whose code names no live room sends one [error]
    event with message 'Room not found', to the requesting socket and to
    no other; no room is created and the whole state is left as it was. *)
Theorem join_missing_room_rejected (st : State) (s roomCode name : string)
    (Hmissing : rooms st !! roomCode = None) :
  exec (join_room s roomCode name) st = (st, [SocketEmit s (Error "Room not found")]) ∧
  deliveries (sio_rooms st) (exec (join_room s roomCode name) st).2
    = [(s, Error "Room not found")] ∧
  rooms (exec (join_room s roomCode name) st).1 !! roomCode = None.
Proof.
  rewrite (exec_join_room_missing st s roomCode name Hmissing).
  repeat split. exact Hmissing.
Qed.

Lemma join_full_room_rejected_witness :
  (rooms (state_after full_house) !! "ABC123" = Some full_room ∧
   JsMap.size (room_users full_room) = 4) ∧
  exec (join_room "s5" "ABC123" "Eve") (state_after full_house)
    = (state_after full_house, [SocketEmit "s5" (Error "Room is full")]) ∧
  deliveries (sio_rooms (state_after full_house))
    (exec (join_room "s5" "ABC123" "Eve") (state_after full_house)).2
    = [("s5", Error "Room is full")] ∧
  rooms (exec (join_room "s5" "ABC123" "Eve") (state_after full_house)).1 !! "ABC123"
    = Some full_room.
Proof.
  assert (H1 : rooms (state_after full_house) !! "ABC123" = Some full_room)
    by (vm_compute; reflexivity).
  assert (H2 : JsMap.size (room_users full_room) = 4) by reflexivity.
  split; [split; assumption|].
  exact (join_full_room_rejected (state_after full_house) "s5" "ABC123" "Eve" full_room H1 H2).
Defined.

Lemma join_missing_room_rejected_witness :
  rooms (state_after alice_opens) !! "ZZZZZZ" = None ∧
  exec (join_room "s1" "ZZZZZZ" "Alice") (state_after alice_opens)
    = (state_after alice_opens, [SocketEmit "s1" (Error "Room not found")]) ∧
  deliveries (sio_rooms (state_after alice_opens))
    (exec (join_room "s1" "ZZZZZZ" "Alice") (state_after alice_opens)).2
    = [("s1", Error "Room not found")] ∧
  rooms (exec (join_room "s1" "ZZZZZZ" "Alice") (state_after alice_opens)).1 !! "ZZZZZZ" = None.
Proof.
  assert (H : rooms (state_after alice_opens) !! "ZZZZZZ" = None)
    by (vm_compute; reflexivity).
  split; [assumption|].
  exact (join_missing_room_rejected (state_after alice_opens) "s1" "ZZZZZZ" "Alice" H).
Defined.

(** ** Creating a room *)

(** C5, as the code has it. A [create-room] is never turned down: for
    every name, the empty one included, it stores a room that holds the
    requester alone, as host and under that name, binds the requester in
    the registry, and sends the requester [room-created] and nothing
    else; no [error] event is sent. *)
Theorem create_room_accepts_any_name (st : State) (s name rnd : string) (now : Z) :
  let code := generateRoomCode rnd in
  let st' := (exec (create_room s name rnd now) st).1 in
  let out := (exec (create_room s name rnd now) st).2 in
  rooms st' !! code = Some (created s name code now) ∧
  JsMap.get s (room_users (created s name code now)) = Some (mkParticipant s name true) ∧
  users st' !! s = Some (mkUserEntry code name) ∧
  out = [SocketEmit s (RoomCreated code true [mkParticipant s name true])] ∧
  no_error out.
Proof.
  rewrite exec_create_room. cbn. repeat split.
  - apply lookup_insert_eq.
  - destruct (decide (s = s)); congruence.
  - apply lookup_insert_eq.
  - intros e message He. apply list_elem_of_singleton in He. subst e. discriminate.
Qed.

(** C5, as stated, fails: an empty name is not rejected. *)
Lemma empty_name_not_rejected : ¬ empty_name_rejected.
Proof.
  intros H. destruct (H init "s1" "0.abc123" 0%Z) as [message Hm].
  rewrite exec_create_room in Hm. discriminate Hm.
Qed.

(** A [create-room] whose draw renders as the code of a live room is
    carried out like any other: the live room is replaced. *)
Lemma create_room_overwrites_live_room st s name rnd now room :
  rooms st !! generateRoomCode rnd = Some room →
  rooms (exec (create_room s name rnd now) st).1 !! generateRoomCode rnd
    = Some (created s name (generateRoomCode rnd) now).
Proof. intros _. rewrite exec_create_room. apply lookup_insert_eq. Qed.

(** C6, at inputs where the code departs from it. The draw 0.5 prints as
    "0.i" and renders as the one-character code "I"; and a second
    [create-room] whose draw renders as the code of a live room is
    accepted: it replaces Alice's room while Alice's registry entry still
    names that code and Alice is no member of the room now stored. *)
Theorem generateRoomCode_short_or_taken :
  radix36_text "0.i" ∧
  generateRoomCode "0.i" = "I" ∧
  ¬ code_as_specified init (generateRoomCode "0.i") ∧
  rooms (state_after alice_opens) !! generateRoomCode "0.abc123zzz"
    = Some (created "s1" "Alice" "ABC123" 0) ∧
  ¬ code_as_specified (state_after alice_opens) (generateRoomCode "0.abc123zzz") ∧
  rooms (state_after same_code_twice) !! "ABC123" = Some (created "s2" "Bob" "ABC123" 1) ∧
  users (state_after same_code_twice) !! "s1" = Some (mkUserEntry "ABC123" "Alice") ∧
  ¬ member_of "s1" "ABC123" (state_after same_code_twice).
Proof.
  assert (Hlive : rooms (state_after alice_opens) !! generateRoomCode "0.abc123zzz"
            = Some (created "s1" "Alice" "ABC123" 0)) by (vm_compute; reflexivity).
  assert (Hnew : rooms (state_after same_code_twice) !! "ABC123"
            = Some (created "s2" "Bob" "ABC123" 1)) by (vm_compute; reflexivity).
  split; [|split; [|split; [|split; [|split; [|split; [|split]]]]]].
  - right. exists "i". repeat split. discriminate.
  - reflexivity.
  - intros (Hlen & _). vm_compute in Hlen. discriminate.
  - exact Hlive.
  - intros (_ & _ & Hfree). rewrite Hlive in Hfree. discriminate.
  - exact Hnew.
  - vm_compute. reflexivity.
  - intros (room & Hroom & Hmem). rewrite Hnew in Hroom. injection Hroom as <-.
    vm_compute in Hmem. destruct Hmem as [p Hp]. discriminate.
Qed.

(** The rendered code, for a draw printed as [radix36_text] describes:
    at most six characters, all of them uppercase alphanumeric. *)
Lemma upper_ascii_radix36 c :
  JsString.is_radix36_digit c = true → JsString.is_upper_alnum (JsString.upper_ascii c) = true.
Proof.
  destruct c as [[] [] [] [] [] [] [] []]; vm_compute; congruence.
Qed.

Lemma toUpperCase_prefix_shape ds n :
  JsString.forallb JsString.is_radix36_digit ds = true →
  String.length (JsString.toUpperCase (String.substring 0 n ds)) ≤ n ∧
  JsString.forallb JsString.is_upper_alnum (JsString.toUpperCase (String.substring 0 n ds)) = true.
Proof.
  revert n. induction ds as [|c ds IH]; intros n Hds.
  - destruct n; simpl; split; (lia || reflexivity).
  - destruct n as [|n]; [simpl; split; (lia || reflexivity)|].
    cbn [JsString.forallb] in Hds. apply andb_true_iff in Hds as [Hc Hds].
    destruct (IH n Hds) as [Hlen Hall].
    cbn [String.substring JsString.toUpperCase String.length JsString.forallb].
    split; [lia|]. rewrite (upper_ascii_radix36 c Hc). exact Hall.
Qed.

Lemma generateRoomCode_shape rnd :
  radix36_text rnd →
  String.length (generateRoomCode rnd) ≤ 6 ∧
  JsString.forallb JsString.is_upper_alnum (generateRoomCode rnd) = true.
Proof.
  intros [->|(ds & -> & _ & Hds)].
  - split; [vm_compute; lia | reflexivity].
  - unfold generateRoomCode, JsString.substring.
    change (String.substring (Nat.min 2 8) (Nat.max 2 8 - Nat.min 2 8) (String.append "0." ds))
      with (String.substring 0 6 ds).
    apply toUpperCase_prefix_shape, Hds.
Qed.

(** ** Registry and room store *)







(** ** Host flag and member records *)







(** A socket that joins the room it is in replaces its own record: the
    creator loses the host flag and takes the new name. *)
Lemma rejoin_replaces_own_record :
  rooms (state_after (alice_opens ++ [JoinRoom "s1" "ABC123" "Al"])) !! "ABC123"
    = Some (mkRoom "ABC123" "s1" [("s1", mkParticipant "s1" "Al" false)] 0).
Proof. vm_compute. reflexivity. Qed.

(** ** Signaling relay *)



(** ** Disconnect *)

Lemma adapter_del_all_idem s ad :
  adapter_del_all s (adapter_del_all s ad) = adapter_del_all s ad.
Proof.
  assert (E : ∀ S : gset string, (S ∖ {[s]}) ∖ {[s]} = S ∖ {[s]}).
  { intros S. apply set_eq. intros x. rewrite !elem_of_difference. tauto. }
  apply map_eq. intros i. unfold adapter_del_all. rewrite !lookup_omap.
  destruct (ad !! i) as [S|]; cbn; [|reflexivity].
  destruct (decide (S ∖ {[s]} = ∅)) as [Hempty|Hne]; cbn; [reflexivity|].
  rewrite E. destruct (decide (S ∖ {[s]} = ∅)); [contradiction | reflexivity].
Qed.

(** After the handler the socket has no registry entry, and the handler
    never touches the adapter. *)
Lemma disconnect_unbinds st s :
  users (exec (disconnect s) st).1 !! s = None ∧
  sio_rooms (exec (disconnect s) st).1 = sio_rooms st.
Proof.
  destruct (users st !! s) as [u|] eqn:Hu.
  - destruct (rooms st !! user_roomCode u) as [room|] eqn:Hroom.
    + destruct (decide (JsMap.size (JsMap.delete s (room_users room)) = 0)) as [Hz|Hnz].
      * rewrite (exec_disconnect_last st s u room Hu Hroom Hz). cbn.
        split; [apply lookup_delete_eq | reflexivity].
      * rewrite (exec_disconnect_others st s u room Hu Hroom Hnz). cbn.
        split; [apply lookup_delete_eq | reflexivity].
    + rewrite (exec_disconnect_no_room st s u Hu Hroom). cbn.
      split; [apply lookup_delete_eq | reflexivity].
  - rewrite (exec_disconnect_unknown st s Hu). split; [exact Hu | reflexivity].
Qed.

(** C9. Handling [disconnect] a second time for the same connection
    leaves the state as the first handling left it and sends nothing, so
    no second [user-left]; this holds for the listener alone and for the
    whole close (transport and listener).  A [disconnect] for a
    connection without a registry entry changes nothing and sends
    nothing. *)
Theorem disconnect_idempotent (st : State) (s : string) :
  (users st !! s = None → exec (disconnect s) st = (st, [])) ∧
  exec (disconnect s) (exec (disconnect s) st).1 = ((exec (disconnect s) st).1, []) ∧
  step (Disconnect s) (step (Disconnect s) st).1 = ((step (Disconnect s) st).1, []).
Proof.
  split; [apply exec_disconnect_unknown|]. split.
  - apply exec_disconnect_unknown, disconnect_unbinds.
  - rewrite (step_disconnect st s).
    set (st0 := mkState (rooms st) (users st) (adapter_del_all s (sio_rooms st))).
    destruct (disconnect_unbinds st0 s) as [Hgone Hsio].
    rewrite step_disconnect.
    rewrite exec_disconnect_unknown by exact Hgone.
    assert (Hfix : adapter_del_all s (sio_rooms (exec (disconnect s) st0).1)
                   = sio_rooms (exec (disconnect s) st0).1).
    { rewrite Hsio. apply adapter_del_all_idem. }
    rewrite Hfix. destruct (exec (disconnect s) st0).1. reflexivity.
Qed.

Lemma disconnect_idempotent_witness :
  users init !! "s1" = None ∧
  exec (disconnect "s1") init = (init, []) ∧
  step (Disconnect "s2") (step (Disconnect "s2") (state_after full_house)).1
    = ((step (Disconnect "s2") (state_after full_house)).1, []).
Proof.
  assert (H : users init !! "s1" = None) by reflexivity.
  split; [exact H|]. split.
  - exact (proj1 (disconnect_idempotent init "s1") H).
  - exact (proj2 (proj2 (disconnect_idempotent (state_after full_house) "s2"))).
Defined.

(** ** Stale memberships *)



Lemma move_effect st s B e :
  moves_to s B st e →
  member_of s B (step e st).1 ∧
  (∃ name, users (step e st).1 !! s = Some (mkUserEntry B name)) ∧
  no_error (step e st).2 ∧
  ∀ A, A ≠ B → rooms (step e st).1 !! A = rooms st !! A.
Proof.
  destruct e as [s'|s' name rnd now|s' rc name|s' t o|s' t a|s' t c|s' au la|s'];
    cbn [moves_to]; try contradiction.
  - intros [-> <-]. unfold step, handle, member_of. rewrite exec_create_room. cbn [fst snd rooms users].
    split; [|split; [|split]].
    + eexists. rewrite lookup_insert_eq. split; [reflexivity|]. cbn.
      destruct (decide (s = s)); [eauto | congruence].
    + exists name. apply lookup_insert_eq.
    + intros e message He. apply list_elem_of_singleton in He. subst e. discriminate.
    + intros A HA. apply lookup_insert_ne. congruence.
  - intros (-> & -> & roomB & HB & Hlt). unfold step, handle, member_of.
    rewrite (exec_join_room_ok st s B name roomB HB Hlt). cbn [fst snd rooms users].
    split; [|split; [|split]].
    + eexists. rewrite lookup_insert_eq. split; [reflexivity|]. cbn.
      rewrite JsMapFacts.get_set_eq. eauto.
    + exists name. apply lookup_insert_eq.
    + intros e message He. apply elem_of_cons in He as [->|He]; [discriminate|].
      apply list_elem_of_singleton in He. subst e. discriminate.
    + intros A HA. apply lookup_insert_ne. congruence.
Qed.





(** * Further properties of the server *)

(** ** Order and multiplicity in the member map *)

Module JsMapOrder.
Section Facts.
Context {V : Type}.
Implicit Types (m : JsMap.t V) (k : string) (v : V).

Lemma set_absent m k v :
  JsMap.get k m = None → JsMap.set k v m = m ++ [(k, v)].
Proof.
  induction m as [|[k0 v0] m IH]; simpl; [reflexivity|].
  destruct (decide (k0 = k)); [discriminate|]. intros H. f_equal. auto.
Qed.

Lemma keys_set_present m k v :
  is_Some (JsMap.get k m) → JsMap.keys (JsMap.set k v m) = JsMap.keys m.
Proof.
  unfold JsMap.keys. induction m as [|[k0 v0] m IH]; simpl.
  - intros [x Hx]. discriminate.
  - destruct (decide (k0 = k)) as [->|]; simpl; [reflexivity|].
    intros H. f_equal. auto.
Qed.

Lemma size_set_present m k v :
  is_Some (JsMap.get k m) → JsMap.size (JsMap.set k v m) = JsMap.size m.
Proof.
  intros H. unfold JsMap.size.
  rewrite <- (length_fmap fst (JsMap.set k v m)), <- (length_fmap fst m).
  f_equal. exact (keys_set_present m k v H).
Qed.

Lemma get_absent m k : k ∉ JsMap.keys m → JsMap.get k m = None.
Proof.
  unfold JsMap.keys. induction m as [|[k0 v0] m IH]; simpl; [reflexivity|].
  rewrite not_elem_of_cons. intros [Hne Hnin].
  destruct (decide (k0 = k)); [congruence | auto].
Qed.

Lemma get_elem m k v : JsMap.get k m = Some v → (k, v) ∈ m.
Proof.
  induction m as [|[k0 v0] m IH]; simpl; [discriminate|].
  destruct (decide (k0 = k)) as [->|].
  - intros [= ->]. apply elem_of_cons. left. reflexivity.
  - intros H. apply elem_of_cons. right. auto.
Qed.

Lemma elem_get m k v : NoDup (JsMap.keys m) → (k, v) ∈ m → JsMap.get k m = Some v.
Proof.
  unfold JsMap.keys. induction m as [|[k0 v0] m IH]; simpl.
  - intros _ H. inversion H.
  - rewrite NoDup_cons. intros [Hnin Hnd]. rewrite elem_of_cons. intros [[= -> ->]|Hin].
    + destruct (decide (k0 = k0)); congruence.
    + destruct (decide (k0 = k)) as [->|]; [|auto].
      exfalso. apply Hnin. apply list_elem_of_fmap. exists (k, v). auto.
Qed.

Lemma size_delete_present m k v :
  NoDup (JsMap.keys m) → JsMap.get k m = Some v →
  S (JsMap.size (JsMap.delete k m)) = JsMap.size m.
Proof.
  unfold JsMap.keys, JsMap.size. induction m as [|[k0 v0] m IH]; simpl; [discriminate|].
  rewrite NoDup_cons. intros [Hnin Hnd].
  destruct (decide (k0 = k)) as [->|].
  - intros _. rewrite (JsMapFacts.delete_absent m k (get_absent m k Hnin)). reflexivity.
  - intros H. simpl. f_equal. auto.
Qed.

End Facts.
End JsMapOrder.

(** ** Successful joins *)

(** X1. A [join-room] for a live room with a free place, from a
    connection that is not yet a member, appends exactly the newcomer,
    as a non-host under the given name, after the existing members; the
    room's host and creation time stay, the newcomer is bound in the
    registry, and the two sends ([user-joined] to the socket.io room,
    [room-joined] to the requester) carry the new list. *)
Theorem join_room_appends_newcomer (st : State) (s roomCode name : string) (room : Room)
    (Hlive : rooms st !! roomCode = Some room)
    (Hplace : JsMap.size (room_users room) < 4)
    (Hnew : JsMap.get s (room_users room) = None) :
  let st' := (exec (join_room s roomCode name) st).1 in
  let userList := JsMap.values (room_users room) ++ [mkParticipant s name false] in
  (∃ room',
     rooms st' !! roomCode = Some room' ∧
     JsMap.values (room_users room') = userList ∧
     JsMap.size (room_users room') = S (JsMap.size (room_users room)) ∧
     room_host room' = room_host room ∧
     room_createdAt room' = room_createdAt room) ∧
  users st' !! s = Some (mkUserEntry roomCode name) ∧
  (exec (join_room s roomCode name) st).2
    = [SocketTo s roomCode (UserJoined s name userList);
       SocketEmit s (RoomJoined roomCode userList false)].
Proof.
  intros st' userList. subst st'.
  rewrite (exec_join_room_ok st s roomCode name room Hlive Hplace).
  assert (Hset : room_users (joined s name room)
                 = room_users room ++ [(s, mkParticipant s name false)]).
  { cbn. apply JsMapOrder.set_absent, Hnew. }
  assert (Hvals : JsMap.values (room_users (joined s name room)) = userList).
  { rewrite Hset. unfold JsMap.values, userList. rewrite fmap_app. reflexivity. }
  cbn [fst snd rooms users]. split; [|split].
  - exists (joined s name room). rewrite lookup_insert_eq.
    split; [reflexivity|]. split; [exact Hvals|]. split; [|split; reflexivity].
    rewrite Hset. unfold JsMap.size. rewrite length_app. simpl. lia.
  - apply lookup_insert_eq.
  - rewrite Hvals. reflexivity.
Qed.

Lemma join_room_appends_newcomer_witness :
  (rooms (state_after alice_opens) !! "ABC123" = Some (created "s1" "Alice" "ABC123" 0) ∧
   JsMap.size (room_users (created "s1" "Alice" "ABC123" 0)) < 4 ∧
   JsMap.get "s2" (room_users (created "s1" "Alice" "ABC123" 0)) = None) ∧
  (exec (join_room "s2" "ABC123" "Bob") (state_after alice_opens)).2
    = [SocketTo "s2" "ABC123"
         (UserJoined "s2" "Bob"
            [mkParticipant "s1" "Alice" true; mkParticipant "s2" "Bob" false]);
       SocketEmit "s2"
         (RoomJoined "ABC123"
            [mkParticipant "s1" "Alice" true; mkParticipant "s2" "Bob" false] false)].
Proof.
  assert (H1 : rooms (state_after alice_opens) !! "ABC123"
                 = Some (created "s1" "Alice" "ABC123" 0)) by (vm_compute; reflexivity).
  assert (H2 : JsMap.size (room_users (created "s1" "Alice" "ABC123" 0)) < 4)
    by (unfold JsMap.size; simpl; repeat constructor).
  assert (H3 : JsMap.get "s2" (room_users (created "s1" "Alice" "ABC123" 0)) = None)
    by reflexivity.
  split; [auto|].
  exact (proj2 (proj2 (join_room_appends_newcomer (state_after alice_opens) "s2" "ABC123" "Bob"
                         (created "s1" "Alice" "ABC123" 0) H1 H2 H3))).
Defined.

(** X2. A [join-room] from a connection that is already a member of the
    room (with a place still free) is carried out like any other: the
    member list keeps its ids, their order and its length, and the
    connection's own record is replaced by a non-host record under the
    new name, so a creator who joins its own room again gives up the host
    flag; the requester is told [room-joined] with [isHost] false. *)
Theorem rejoin_replaces_record (st : State) (s roomCode name : string) (room : Room)
    (p : Participant)
    (Hlive : rooms st !! roomCode = Some room)
    (Hplace : JsMap.size (room_users room) < 4)
    (Hmember : JsMap.get s (room_users room) = Some p) :
  let st' := (exec (join_room s roomCode name) st).1 in
  ∃ room',
    rooms st' !! roomCode = Some room' ∧
    JsMap.keys (room_users room') = JsMap.keys (room_users room) ∧
    JsMap.size (room_users room') = JsMap.size (room_users room) ∧
    JsMap.get s (room_users room') = Some (mkParticipant s name false) ∧
    (exec (join_room s roomCode name) st).2
      = [SocketTo s roomCode (UserJoined s name (JsMap.values (room_users room')));
         SocketEmit s (RoomJoined roomCode (JsMap.values (room_users room')) false)].
Proof.
  intros st'. subst st'.
  rewrite (exec_join_room_ok st s roomCode name room Hlive Hplace).
  cbn [fst snd rooms users]. exists (joined s name room).
  rewrite lookup_insert_eq. split; [reflexivity|].
  assert (Hsome : is_Some (JsMap.get s (room_users room))) by eauto.
  split; [exact (JsMapOrder.keys_set_present _ _ _ Hsome)|].
  split; [exact (JsMapOrder.size_set_present _ _ _ Hsome)|].
  split; [apply JsMapFacts.get_set_eq | reflexivity].
Qed.

Lemma rejoin_replaces_record_witness :
  (rooms (state_after alice_and_bob) !! "ABC123"
     = Some (joined "s2" "Bob" (created "s1" "Alice" "ABC123" 0)) ∧
   JsMap.size (room_users (joined "s2" "Bob" (created "s1" "Alice" "ABC123" 0))) < 4 ∧
   JsMap.get "s1" (room_users (joined "s2" "Bob" (created "s1" "Alice" "ABC123" 0)))
     = Some (mkParticipant "s1" "Alice" true)) ∧
  ∃ room',
    rooms (exec (join_room "s1" "ABC123" "Al") (state_after alice_and_bob)).1 !! "ABC123"
      = Some room' ∧
    JsMap.keys (room_users room')
      = JsMap.keys (room_users (joined "s2" "Bob" (created "s1" "Alice" "ABC123" 0))) ∧
    JsMap.size (room_users room')
      = JsMap.size (room_users (joined "s2" "Bob" (created "s1" "Alice" "ABC123" 0))) ∧
    JsMap.get "s1" (room_users room') = Some (mkParticipant "s1" "Al" false) ∧
    (exec (join_room "s1" "ABC123" "Al") (state_after alice_and_bob)).2
      = [SocketTo "s1" "ABC123" (UserJoined "s1" "Al" (JsMap.values (room_users room')));
         SocketEmit "s1" (RoomJoined "ABC123" (JsMap.values (room_users room')) false)].
Proof.
  assert (H1 : rooms (state_after alice_and_bob) !! "ABC123"
                 = Some (joined "s2" "Bob" (created "s1" "Alice" "ABC123" 0)))
    by (vm_compute; reflexivity).
  assert (H2 : JsMap.size (room_users (joined "s2" "Bob" (created "s1" "Alice" "ABC123" 0))) < 4)
    by (unfold JsMap.size; simpl; repeat constructor).
  assert (H3 : JsMap.get "s1" (room_users (joined "s2" "Bob" (created "s1" "Alice" "ABC123" 0)))
                 = Some (mkParticipant "s1" "Alice" true)) by reflexivity.
  split; [auto|].
  exact (rejoin_replaces_record (state_after alice_and_bob) "s1" "ABC123" "Al"
           (joined "s2" "Bob" (created "s1" "Alice" "ABC123" 0))
           (mkParticipant "s1" "Alice" true) H1 H2 H3).
Defined.

(** ** Shape of the stored rooms *)

Lemma member_ids_are_keys (m : JsMap.t Participant) :
  NoDup (JsMap.keys m) →
  (∀ k p, JsMap.get k m = Some p → id p = k) →
  id <$> JsMap.values m = JsMap.keys m.
Proof.
  intros Hnd Hid. unfold JsMap.values, JsMap.keys.
  assert (H : ∀ kp, kp ∈ m → id kp.2 = kp.1).
  { intros [k p] Hin. apply (Hid k p), JsMapOrder.elem_get; assumption. }
  clear Hnd Hid. induction m as [|[k p] m IH]; [reflexivity|].
  simpl. f_equal.
  - apply (H (k, p)), elem_of_cons. left. reflexivity.
  - apply IH. intros kp Hin. apply H, elem_of_cons. right. exact Hin.
Qed.

(** X3. After every sequence of events, a stored room carries the code it
    is stored under, the user list sent to clients names each connection
    at most once, and each member's record is the one the room returns
    for that member's id. *)
Theorem room_records_well_formed (evs : list Event) (code : string) (room : Room)
    (Hlive : rooms (state_after evs) !! code = Some room) :
  room_code room = code ∧
  NoDup (id <$> JsMap.values (room_users room)) ∧
  ∀ p, p ∈ JsMap.values (room_users room) →
       JsMap.get (id p) (room_users room) = Some p.
Proof.
  destruct (rooms_inv_reachable evs code room Hlive) as (_ & (Hcode & Hnd & Hid) & _).
  split; [exact Hcode|]. split.
  - rewrite (member_ids_are_keys _ Hnd Hid). exact Hnd.
  - intros p Hp. unfold JsMap.values in Hp.
    apply list_elem_of_fmap in Hp as ([k p'] & -> & Hin).
    pose proof (JsMapOrder.elem_get _ _ _ Hnd Hin) as Hget.
    cbn. rewrite (Hid k p' Hget). exact Hget.
Qed.

Lemma room_records_well_formed_witness :
  rooms (state_after full_house) !! "ABC123" = Some full_room ∧
  room_code full_room = "ABC123" ∧
  NoDup (id <$> JsMap.values (room_users full_room)) ∧
  ∀ p, p ∈ JsMap.values (room_users full_room) →
       JsMap.get (id p) (room_users full_room) = Some p.
Proof.
  assert (H : rooms (state_after full_house) !! "ABC123" = Some full_room)
    by (vm_compute; reflexivity).
  split; [exact H|]. exact (room_records_well_formed full_house "ABC123" full_room H).
Defined.

(** ** The socket.io adapter *)

Lemma step_sio_rooms e st : sio_rooms (step e st).1 = adapter_after e st.
Proof.
  destruct e as [s|s name rnd now|s roomCode name|s t o|s t a|s t c|s au la|s];
    try reflexivity.
  - unfold step, handle, adapter_after, joins_room.
    destruct (rooms st !! roomCode) as [room|] eqn:Hroom.
    + destruct (Nat.leb_spec 4 (JsMap.size (room_users room))) as [Hge|Hlt].
      * rewrite (exec_join_room_full _ _ _ _ _ Hroom Hge). reflexivity.
      * rewrite (exec_join_room_ok _ _ _ _ _ Hroom Hlt). reflexivity.
    + rewrite (exec_join_room_missing _ _ _ _ Hroom). reflexivity.
  - unfold step, handle. rewrite exec_translation_audio_state. reflexivity.
  - rewrite step_disconnect.
    rewrite (proj2 (disconnect_unbinds _ s)). reflexivity.
Qed.

Lemma step_disconnect_unbinds st s : users (step (Disconnect s) st).1 !! s = None.
Proof. rewrite step_disconnect. apply disconnect_unbinds. Qed.

Lemma in_sio_room_add c r s r' ad :
  in_sio_room c r (adapter_add s r' ad) ↔ (c = s ∧ r = r') ∨ in_sio_room c r ad.
Proof.
  unfold in_sio_room, adapter_add. rewrite lookup_insert.
  destruct (decide (r' = r)) as [->|Hne]; cbn.
  - rewrite elem_of_union, elem_of_singleton. tauto.
  - split; [tauto|]. intros [[_ ->]|H]; [congruence | exact H].
Qed.

Lemma in_sio_room_del_all c r s ad :
  in_sio_room c r (adapter_del_all s ad) ↔ c ≠ s ∧ in_sio_room c r ad.
Proof.
  unfold in_sio_room, adapter_del_all. rewrite lookup_omap.
  destruct (ad !! r) as [S|]; cbn.
  - destruct (decide (S ∖ {[s]} = ∅)) as [Hempty|Hne]; cbn.
    + split; [intros H; exfalso; exact (not_elem_of_empty c H)|].
      intros [Hc HS]. exfalso. apply (not_elem_of_empty (C:=gset string) c).
      rewrite <- Hempty. apply elem_of_difference. rewrite elem_of_singleton. tauto.
    + rewrite elem_of_difference, elem_of_singleton. tauto.
  - split; [intros H; exfalso; exact (not_elem_of_empty c H) | tauto].
Qed.

Lemma elem_of_recipients_to ad s r ev c :
  c ∈ recipients ad (SocketTo s r ev) ↔ in_sio_room c r ad ∧ c ≠ s.
Proof.
  unfold recipients, in_sio_room.
  rewrite elem_of_elements, elem_of_difference, elem_of_singleton. tauto.
Qed.

Lemma elem_of_deliveries ad out c ev :
  (c, ev) ∈ deliveries ad out ↔ ∃ e, e ∈ out ∧ emit_event e = ev ∧ c ∈ recipients ad e.
Proof.
  unfold deliveries. rewrite list_elem_of_In, in_flat_map. split.
  - intros (e & He & Hin). apply in_map_iff in Hin as (r & [= <- <-] & Hr).
    exists e. rewrite !list_elem_of_In. auto.
  - intros (e & He & <- & Hr). exists e. rewrite <- list_elem_of_In. split; [exact He|].
    apply in_map_iff. exists c. rewrite <- list_elem_of_In. auto.
Qed.

Lemma joins_room_true st roomCode room :
  rooms st !! roomCode = Some room → JsMap.size (room_users room) < 4 →
  joins_room st roomCode = true.
Proof.
  intros H Hlt. unfold joins_room. rewrite H.
  destruct (Nat.leb_spec 4 (JsMap.size (room_users room))); [lia | reflexivity].
Qed.

Lemma step_registered_joined e st :
  registered_joined st → registered_joined (step e st).1.
Proof.
  intros Hinv c uc Huc. rewrite step_sio_rooms.
  pose proof (step_store_step e st) as Hstep.
  inversion Hstep as [e0 st0 Hr Hu|s name rnd now st0 Hr Hu|s rc name room st0 Hroom Hlt Hr Hu
                     |s u st0 Hs Hnone Hr Hu|s u room st0 Hs Hroom Hz Hr Hu
                     |s u room st0 Hs Hroom Hnz Hr Hu]; subst.
  - rewrite Hu in Huc. specialize (Hinv c uc Huc).
    destruct e as [s|s name rnd now|s roomCode name|s t o|s t a|s t c0|s au la|s];
      cbn [adapter_after]; try exact Hinv;
      try (apply in_sio_room_add; right; exact Hinv).
    + destruct (joins_room st roomCode); [apply in_sio_room_add; right|]; exact Hinv.
    + apply in_sio_room_del_all. split; [|exact Hinv].
      intros ->. pose proof (step_disconnect_unbinds st s) as Hgone.
      rewrite Hu in Hgone. congruence.
  - cbn [adapter_after]. apply in_sio_room_add. rewrite Hu, lookup_insert in Huc.
    destruct (decide (s = c)) as [->|Hne].
    + injection Huc as <-. left. auto.
    + right. exact (Hinv c uc Huc).
  - cbn [adapter_after]. rewrite (joins_room_true st rc room Hroom Hlt).
    apply in_sio_room_add. rewrite Hu, lookup_insert in Huc.
    destruct (decide (s = c)) as [->|Hne].
    + injection Huc as <-. left. auto.
    + right. exact (Hinv c uc Huc).
  - cbn [adapter_after]. rewrite Hu, lookup_delete in Huc.
    destruct (decide (s = c)); [discriminate|].
    apply in_sio_room_del_all. split; [congruence | exact (Hinv c uc Huc)].
  - cbn [adapter_after]. rewrite Hu, lookup_delete in Huc.
    destruct (decide (s = c)); [discriminate|].
    apply in_sio_room_del_all. split; [congruence | exact (Hinv c uc Huc)].
  - cbn [adapter_after]. rewrite Hu, lookup_delete in Huc.
    destruct (decide (s = c)); [discriminate|].
    apply in_sio_room_del_all. split; [congruence | exact (Hinv c uc Huc)].
Qed.

Lemma registered_joined_reachable evs : registered_joined (state_after evs).
Proof.
  unfold state_after. apply (run_invariant registered_joined).
  - intros e st. apply step_registered_joined.
  - intros c u. unfold init. simpl. rewrite lookup_empty. discriminate.
Qed.

Lemma sender_not_in_deliveries ad s r ev ev' :
  (s, ev') ∉ deliveries ad [SocketTo s r ev].
Proof.
  rewrite elem_of_deliveries. intros (e & He & _ & Hr).
  apply list_elem_of_singleton in He. subst e.
  apply elem_of_recipients_to in Hr. tauto.
Qed.

Lemma registered_in_deliveries ad s r ev c :
  in_sio_room c r ad → c ≠ s → (c, ev) ∈ deliveries ad [SocketTo s r ev].
Proof.
  intros Hin Hne. apply elem_of_deliveries. exists (SocketTo s r ev).
  split; [apply list_elem_of_singleton; reflexivity|]. split; [reflexivity|].
  apply elem_of_recipients_to. auto.
Qed.

(** ** Signaling relay: who receives *)




(** X4. After every sequence of events, a send to a room by
    [socket.to(roomCode).emit] reaches every connection whose registry
    entry names that room, the sending socket excepted; the sender never
    receives its own send. *)
Theorem broadcast_reaches_registered (evs : list Event) (s c : string) (u : UserEntry)
    (ev : OutEvent)
    (Hreg : users (state_after evs) !! c = Some u)
    (Hother : c ≠ s) :
  (c, ev) ∈ deliveries (sio_rooms (state_after evs)) [SocketTo s (user_roomCode u) ev] ∧
  ∀ ev', (s, ev') ∉ deliveries (sio_rooms (state_after evs)) [SocketTo s (user_roomCode u) ev].
Proof.
  split.
  - apply registered_in_deliveries; [|exact Hother].
    exact (registered_joined_reachable evs c u Hreg).
  - intros ev'. apply sender_not_in_deliveries.
Qed.

Lemma broadcast_reaches_registered_witness :
  (users (state_after full_house) !! "s3" = Some (mkUserEntry "ABC123" "Cat") ∧ "s3" ≠ "s1") ∧
  ("s3", Error "x") ∈ deliveries (sio_rooms (state_after full_house))
                        [SocketTo "s1" "ABC123" (Error "x")].
Proof.
  assert (H1 : users (state_after full_house) !! "s3" = Some (mkUserEntry "ABC123" "Cat"))
    by (vm_compute; reflexivity).
  assert (H2 : "s3" ≠ "s1") by discriminate.
  split; [auto|].
  exact (proj1 (broadcast_reaches_registered full_house "s1" "s3"
                  (mkUserEntry "ABC123" "Cat") (Error "x") H1 H2)).
Defined.

(** ** Translation audio *)

Lemma exec_translation_audio_registered st s u audio language :
  users st !! s = Some u →
  exec (translation_audio s audio language) st
    = (st, [SocketTo s (user_roomCode u) (TranslationAudio audio language s)]).
Proof. intros H. unfold_handler. rewrite H. reflexivity. Qed.

(** X5. After every sequence of events, a [translation-audio] event from
    a registered connection leaves the state as it was and is answered by
    one send to the room of the sender's registry entry, carrying the
    audio and the language as received and the sender's id; it reaches
    every other connection registered in that room and never the sender. *)
Theorem translation_audio_reaches_room (evs : list Event) (s c : string)
    (u uc : UserEntry) (audio : Payload) (language : string)
    (Hsender : users (state_after evs) !! s = Some u)
    (Hpeer : users (state_after evs) !! c = Some uc)
    (Hsame : user_roomCode uc = user_roomCode u)
    (Hother : c ≠ s) :
  let st := state_after evs in
  exec (translation_audio s audio language) st
    = (st, [SocketTo s (user_roomCode u) (TranslationAudio audio language s)]) ∧
  (c, TranslationAudio audio language s)
    ∈ deliveries (sio_rooms st) (exec (translation_audio s audio language) st).2 ∧
  ∀ ev, (s, ev) ∉ deliveries (sio_rooms st) (exec (translation_audio s audio language) st).2.
Proof.
  intros st.
  rewrite (exec_translation_audio_registered st s u audio language Hsender). cbn [snd]. split; [reflexivity|]. split.
  - rewrite <- Hsame. apply registered_in_deliveries; [|exact Hother].
    exact (registered_joined_reachable evs c uc Hpeer).
  - intros ev. apply sender_not_in_deliveries.
Qed.

Lemma translation_audio_reaches_room_witness :
  (users (state_after full_house) !! "s2" = Some (mkUserEntry "ABC123" "Bob") ∧
   users (state_after full_house) !! "s4" = Some (mkUserEntry "ABC123" "Dan") ∧
   "s4" ≠ "s2") ∧
  ("s4", TranslationAudio "data:audio" "fr" "s2")
    ∈ deliveries (sio_rooms (state_after full_house))
        (exec (translation_audio "s2" "data:audio" "fr") (state_after full_house)).2.
Proof.
  assert (H1 : users (state_after full_house) !! "s2" = Some (mkUserEntry "ABC123" "Bob"))
    by (vm_compute; reflexivity).
  assert (H2 : users (state_after full_house) !! "s4" = Some (mkUserEntry "ABC123" "Dan"))
    by (vm_compute; reflexivity).
  assert (H3 : "s4" ≠ "s2") by discriminate.
  split; [auto|].
  exact (proj1 (proj2 (translation_audio_reaches_room full_house "s2" "s4"
                         (mkUserEntry "ABC123" "Bob") (mkUserEntry "ABC123" "Dan")
                         "data:audio" "fr" H1 H2 eq_refl H3))).
Defined.

(** X6. A [translation-audio] event from a connection without a registry
    entry is dropped: nothing is sent and nothing changes.  That is the
    case for a connection that never created or joined a room, and for
    every connection once its close has been handled. *)
Theorem translation_audio_needs_registration (st : State) (s : string)
    (audio : Payload) (language : string) :
  (users st !! s = None → exec (translation_audio s audio language) st = (st, [])) ∧
  exec (translation_audio s audio language) (step (Disconnect s) st).1
    = ((step (Disconnect s) st).1, []).
Proof.
  assert (H : ∀ st0, users st0 !! s = None →
                     exec (translation_audio s audio language) st0 = (st0, [])).
  { intros st0 Hnone. unfold_handler. rewrite Hnone. reflexivity. }
  split; [apply H | apply H, step_disconnect_unbinds].
Qed.

Lemma translation_audio_needs_registration_witness :
  users (state_after full_house) !! "s5" = None ∧
  exec (translation_audio "s5" "data:audio" "fr") (state_after full_house)
    = (state_after full_house, []).
Proof.
  assert (H : users (state_after full_house) !! "s5" = None) by (vm_compute; reflexivity).
  split; [exact H|].
  exact (proj1 (translation_audio_needs_registration (state_after full_house) "s5"
                  "data:audio" "fr") H).
Defined.

(** ** Leaving a room *)

Lemma step_disconnect_registered st s u room :
  users st !! s = Some u →
  rooms st !! user_roomCode u = Some room →
  (step (Disconnect s) st).2
    = [SocketTo s (user_roomCode u)
         (UserLeft s (JsMap.values (JsMap.delete s (room_users room))))] ∧
  users (step (Disconnect s) st).1 = delete s (users st) ∧
  rooms (step (Disconnect s) st).1
    = (if decide (JsMap.size (JsMap.delete s (room_users room)) = 0)
       then delete (user_roomCode u) (rooms st)
       else <[user_roomCode u := left s room]> (rooms st)).
Proof.
  intros Hu Hroom. rewrite step_disconnect.
  set (st0 := mkState (rooms st) (users st) (adapter_del_all s (sio_rooms st))).
  destruct (decide (JsMap.size (JsMap.delete s (room_users room)) = 0)) as [Hz|Hnz].
  - rewrite (exec_disconnect_last st0 s u room Hu Hroom Hz). cbn [fst snd rooms users].
    destruct (JsMap.delete s (room_users room)); [auto | discriminate].
  - rewrite (exec_disconnect_others st0 s u room Hu Hroom Hnz). auto.
Qed.

(** X7. After every sequence of events, when a registered connection
    closes, one [user-left] naming it and carrying the remaining member
    list is sent to the room of its registry entry, and it reaches every
    other connection registered in that room; those connections keep
    their registry entries. *)
Theorem user_left_reaches_remaining (evs : list Event) (s c : string)
    (u uc : UserEntry) (room : Room)
    (Hleaver : users (state_after evs) !! s = Some u)
    (Hroom : rooms (state_after evs) !! user_roomCode u = Some room)
    (Hpeer : users (state_after evs) !! c = Some uc)
    (Hsame : user_roomCode uc = user_roomCode u)
    (Hother : c ≠ s) :
  let st' := (step (Disconnect s) (state_after evs)).1 in
  let out := (step (Disconnect s) (state_after evs)).2 in
  out = [SocketTo s (user_roomCode u)
           (UserLeft s (JsMap.values (JsMap.delete s (room_users room))))] ∧
  (c, UserLeft s (JsMap.values (JsMap.delete s (room_users room))))
    ∈ deliveries (sio_rooms st') out ∧
  users st' !! c = Some uc ∧
  users st' !! s = None.
Proof.
  intros st' out. subst st' out.
  destruct (step_disconnect_registered (state_after evs) s u room Hleaver Hroom)
    as (Hout & Husers & _).
  rewrite Hout, Husers. split; [reflexivity|]. split; [|split].
  - apply registered_in_deliveries; [|exact Hother].
    rewrite step_sio_rooms. cbn [adapter_after]. apply in_sio_room_del_all.
    split; [exact Hother|]. rewrite <- Hsame.
    exact (registered_joined_reachable evs c uc Hpeer).
  - rewrite lookup_delete_ne by congruence. exact Hpeer.
  - apply lookup_delete_eq.
Qed.

Lemma user_left_reaches_remaining_witness :
  (users (state_after alice_and_bob) !! "s1" = Some (mkUserEntry "ABC123" "Alice") ∧
   rooms (state_after alice_and_bob) !! "ABC123"
     = Some (joined "s2" "Bob" (created "s1" "Alice" "ABC123" 0)) ∧
   users (state_after alice_and_bob) !! "s2" = Some (mkUserEntry "ABC123" "Bob") ∧
   "s2" ≠ "s1") ∧
  (step (Disconnect "s1") (state_after alice_and_bob)).2
    = [SocketTo "s1" "ABC123" (UserLeft "s1" [mkParticipant "s2" "Bob" false])].
Proof.
  assert (H1 : users (state_after alice_and_bob) !! "s1" = Some (mkUserEntry "ABC123" "Alice"))
    by (vm_compute; reflexivity).
  assert (H2 : rooms (state_after alice_and_bob) !! "ABC123"
                 = Some (joined "s2" "Bob" (created "s1" "Alice" "ABC123" 0)))
    by (vm_compute; reflexivity).
  assert (H3 : users (state_after alice_and_bob) !! "s2" = Some (mkUserEntry "ABC123" "Bob"))
    by (vm_compute; reflexivity).
  assert (H4 : "s2" ≠ "s1") by discriminate.
  split; [auto|].
  exact (proj1 (user_left_reaches_remaining alice_and_bob "s1" "s2"
                  (mkUserEntry "ABC123" "Alice") (mkUserEntry "ABC123" "Bob")
                  (joined "s2" "Bob" (created "s1" "Alice" "ABC123" 0)) H1 H2 H3 eq_refl H4)).
Defined.

Lemma step_keeps_room_absent e st code :
  rooms st !! code = None → ¬ redraws code e → rooms (step e st).1 !! code = None.
Proof.
  intros Hnone Hkeep. pose proof (step_store_step e st) as Hstep.
  inversion Hstep as [e0 st0 Hr Hu|s name rnd now st0 Hr Hu|s rc name room st0 Hroom Hlt Hr Hu
                     |s u st0 Hs Hno Hr Hu|s u room st0 Hs Hroom Hz Hr Hu
                     |s u room st0 Hs Hroom Hnz Hr Hu]; subst; rewrite Hr;
    cbn [redraws] in Hkeep.
  - exact Hnone.
  - rewrite lookup_insert_ne by exact Hkeep. exact Hnone.
  - rewrite lookup_insert_ne by congruence. exact Hnone.
  - exact Hnone.
  - rewrite lookup_delete_ne by congruence. exact Hnone.
  - rewrite lookup_insert_ne by congruence. exact Hnone.
Qed.

Lemma run_keeps_room_absent evs st code :
  rooms st !! code = None → Forall (λ e, ¬ redraws code e) evs →
  rooms (run evs st).1 !! code = None.
Proof.
  intros Hnone Hevs. revert st Hnone.
  induction Hevs as [|e evs He _ IH]; intros st Hnone; [exact Hnone|].
  rewrite run_cons. apply IH, step_keeps_room_absent; assumption.
Qed.

(** X8. When the connection that closes is the last member of the room
    its registry entry names, the room is gone, and it stays gone through
    every later sequence of events in which no [create-room] draws that
    code again: each [join-room] for the code handled then, from any
    connection, is answered with 'Room not found' and changes nothing. *)
Theorem join_after_last_leave_not_found (st : State) (s : string) (u : UserEntry)
    (room : Room) (evs : list Event) (t name : string)
    (Hleaver : users st !! s = Some u)
    (Hroom : rooms st !! user_roomCode u = Some room)
    (Hlast : JsMap.size (JsMap.delete s (room_users room)) = 0)
    (Hunused : Forall (λ e, ¬ redraws (user_roomCode u) e) evs) :
  let st' := (run evs (step (Disconnect s) st).1).1 in
  rooms st' !! user_roomCode u = None ∧
  exec (join_room t (user_roomCode u) name) st'
    = (st', [SocketEmit t (Error "Room not found")]).
Proof.
  intros st'.
  assert (Hgone : rooms st' !! user_roomCode u = None).
  { subst st'. apply run_keeps_room_absent; [|exact Hunused].
    destruct (step_disconnect_registered st s u room Hleaver Hroom) as (_ & _ & Hrooms).
    rewrite Hrooms. destruct (decide _); [apply lookup_delete_eq | contradiction]. }
  split; [exact Hgone | apply exec_join_room_missing, Hgone].
Qed.

Lemma join_after_last_leave_not_found_witness :
  (users (state_after alice_opens) !! "s1" = Some (mkUserEntry "ABC123" "Alice") ∧
   rooms (state_after alice_opens) !! "ABC123" = Some (created "s1" "Alice" "ABC123" 0) ∧
   JsMap.size (JsMap.delete "s1" (room_users (created "s1" "Alice" "ABC123" 0))) = 0 ∧
   Forall (λ e, ¬ redraws "ABC123" e)
     [Connection "s2"; CreateRoom "s2" "Bob" "0.xyz789" 1]) ∧
  exec (join_room "s3" "ABC123" "Cat")
    (run [Connection "s2"; CreateRoom "s2" "Bob" "0.xyz789" 1]
       (step (Disconnect "s1") (state_after alice_opens)).1).1
    = ((run [Connection "s2"; CreateRoom "s2" "Bob" "0.xyz789" 1]
          (step (Disconnect "s1") (state_after alice_opens)).1).1,
       [SocketEmit "s3" (Error "Room not found")]).
Proof.
  assert (H1 : users (state_after alice_opens) !! "s1" = Some (mkUserEntry "ABC123" "Alice"))
    by (vm_compute; reflexivity).
  assert (H2 : rooms (state_after alice_opens) !! "ABC123"
                 = Some (created "s1" "Alice" "ABC123" 0)) by (vm_compute; reflexivity).
  assert (H3 : JsMap.size (JsMap.delete "s1" (room_users (created "s1" "Alice" "ABC123" 0))) = 0)
    by reflexivity.
  assert (H4 : Forall (λ e, ¬ redraws "ABC123" e)
                 [Connection "s2"; CreateRoom "s2" "Bob" "0.xyz789" 1]).
  { apply Forall_cons. split; [intros []|].
    apply Forall_cons. split; [intros E; vm_compute in E; discriminate E|].
    apply Forall_nil. exact I. }
  split; [auto|].
  exact (proj2 (join_after_last_leave_not_found (state_after alice_opens) "s1"
                  (mkUserEntry "ABC123" "Alice") (created "s1" "Alice" "ABC123" 0)
                  [Connection "s2"; CreateRoom "s2" "Bob" "0.xyz789" 1] "s3" "Cat"
                  H1 H2 H3 H4)).
Defined.

(** X9. After every sequence of events, when a member of a room closes
    while its registry entry names that room and other members remain,
    the member count drops by exactly one; so a room that was full takes
    the next [join-room] again instead of answering 'Room is full'. *)
Theorem leave_frees_a_place (evs : list Event) (s : string) (u : UserEntry)
    (room : Room) (p : Participant) (t name : string)
    (Hleaver : users (state_after evs) !! s = Some u)
    (Hroom : rooms (state_after evs) !! user_roomCode u = Some room)
    (Hmember : JsMap.get s (room_users room) = Some p)
    (Hothers : 2 ≤ JsMap.size (room_users room)) :
  let st' := (step (Disconnect s) (state_after evs)).1 in
  rooms st' !! user_roomCode u = Some (left s room) ∧
  S (JsMap.size (room_users (left s room))) = JsMap.size (room_users room) ∧
  rooms (exec (join_room t (user_roomCode u) name) st').1 !! user_roomCode u
    = Some (joined t name (left s room)) ∧
  no_error (exec (join_room t (user_roomCode u) name) st').2.
Proof.
  intros st'.
  destruct (rooms_inv_reachable evs _ room Hroom) as ([_ Hhi] & (_ & Hnd & _) & _).
  pose proof (JsMapOrder.size_delete_present _ _ _ Hnd Hmember) as Hsize.
  destruct (step_disconnect_registered (state_after evs) s u room Hleaver Hroom)
    as (_ & _ & Hrooms).
  assert (Hleft : rooms st' !! user_roomCode u = Some (left s room)).
  { subst st'. rewrite Hrooms. destruct (decide _) as [Hz|_]; [lia|].
    apply lookup_insert_eq. }
  assert (Hplace : JsMap.size (room_users (left s room)) < 4).
  { cbn [left room_users]. unfold MAX_ROOM_SIZE in Hhi. lia. }
  split; [exact Hleft|]. split; [exact Hsize|].
  rewrite (exec_join_room_ok st' t (user_roomCode u) name (left s room) Hleft Hplace).
  cbn [fst snd rooms]. split; [apply lookup_insert_eq|].
  intros e message He. apply elem_of_cons in He as [->|He]; [discriminate|].
  apply list_elem_of_singleton in He. subst e. discriminate.
Qed.

Lemma leave_frees_a_place_witness :
  (users (state_after full_house) !! "s2" = Some (mkUserEntry "ABC123" "Bob") ∧
   rooms (state_after full_house) !! "ABC123" = Some full_room ∧
   JsMap.get "s2" (room_users full_room) = Some (mkParticipant "s2" "Bob" false) ∧
   2 ≤ JsMap.size (room_users full_room)) ∧
  rooms (step (Disconnect "s2") (state_after full_house)).1 !! "ABC123"
    = Some (left "s2" full_room) ∧
  S (JsMap.size (room_users (left "s2" full_room))) = JsMap.size (room_users full_room) ∧
  rooms (exec (join_room "s5" "ABC123" "Eve")
           (step (Disconnect "s2") (state_after full_house)).1).1 !! "ABC123"
    = Some (joined "s5" "Eve" (left "s2" full_room)) ∧
  no_error (exec (join_room "s5" "ABC123" "Eve")
              (step (Disconnect "s2") (state_after full_house)).1).2.
Proof.
  assert (H1 : users (state_after full_house) !! "s2" = Some (mkUserEntry "ABC123" "Bob"))
    by (vm_compute; reflexivity).
  assert (H2 : rooms (state_after full_house) !! "ABC123" = Some full_room)
    by (vm_compute; reflexivity).
  assert (H3 : JsMap.get "s2" (room_users full_room) = Some (mkParticipant "s2" "Bob" false))
    by reflexivity.
  assert (H4 : 2 ≤ JsMap.size (room_users full_room))
    by (unfold JsMap.size; simpl; repeat constructor).
  split; [auto|].
  exact (leave_frees_a_place full_house "s2" (mkUserEntry "ABC123" "Bob") full_room
           (mkParticipant "s2" "Bob" false) "s5" "Eve" H1 H2 H3 H4).
Defined.

(** ** What an event leaves alone *)

(** X10. Handling one event changes at most one room of the store and at
    most the registry entry of the socket the event comes from: there is
    a code such that every room stored under another code is as before,
    and the registry entries of all other sockets are as before. *)
Theorem event_touches_one_room (e : Event) (st : State) :
  (∃ code, ∀ code', code' ≠ code → rooms (step e st).1 !! code' = rooms st !! code') ∧
  (∀ c, c ≠ event_socket e → users (step e st).1 !! c = users st !! c).
Proof.
  pose proof (step_store_step e st) as Hstep.
  inversion Hstep as [e0 st0 Hr Hu|s name rnd now st0 Hr Hu|s rc name room st0 Hroom Hlt Hr Hu
                     |s u st0 Hs Hnone Hr Hu|s u room st0 Hs Hroom Hz Hr Hu
                     |s u room st0 Hs Hroom Hnz Hr Hu]; subst; rewrite Hr, Hu;
    cbn [event_socket].
  - split; [exists EmptyString|]; intros; reflexivity.
  - split; [exists (generateRoomCode rnd)|]; intros x Hx;
      apply lookup_insert_ne; congruence.
  - split; [exists rc|]; intros x Hx; apply lookup_insert_ne; congruence.
  - split; [exists EmptyString; intros; reflexivity|].
    intros x Hx. apply lookup_delete_ne. congruence.
  - split; [exists (user_roomCode u)|]; intros x Hx; apply lookup_delete_ne; congruence.
  - split; [exists (user_roomCode u); intros x Hx; apply lookup_insert_ne; congruence|].
    intros x Hx. apply lookup_delete_ne. congruence.
Qed.

(** X11. As long as a room stays in the store and no [create-room] draws
    its code again, its [code], [host] and [createdAt] fields never
    change: joins and leaves only touch the member map, and the [host]
    field keeps naming the creator after the creator has left. *)
Theorem room_identity_stable (e : Event) (st : State) (code : string) (room room' : Room)
    (Hbefore : rooms st !! code = Some room)
    (Hafter : rooms (step e st).1 !! code = Some room')
    (Hkeep : ¬ redraws code e) :
  room_code room' = room_code room ∧
  room_host room' = room_host room ∧
  room_createdAt room' = room_createdAt room.
Proof.
  pose proof (step_store_step e st) as Hstep. revert Hafter.
  inversion Hstep as [e0 st0 Hr Hu|s name rnd now st0 Hr Hu|s rc name room0 st0 Hroom Hlt Hr Hu
                     |s u st0 Hs Hnone Hr Hu|s u room0 st0 Hs Hroom Hz Hr Hu
                     |s u room0 st0 Hs Hroom Hnz Hr Hu]; subst; rewrite Hr; cbn [redraws] in Hkeep.
  - intros H. assert (room' = room) as -> by congruence. auto.
  - rewrite lookup_insert_ne by exact Hkeep.
    intros H. assert (room' = room) as -> by congruence. auto.
  - rewrite lookup_insert. destruct (decide (rc = code)) as [->|].
    + intros [= <-]. assert (room0 = room) as -> by congruence. auto.
    + intros H. assert (room' = room) as -> by congruence. auto.
  - intros H. assert (room' = room) as -> by congruence. auto.
  - rewrite lookup_delete. destruct (decide (user_roomCode u = code)); [discriminate|].
    intros H. assert (room' = room) as -> by congruence. auto.
  - rewrite lookup_insert. destruct (decide (user_roomCode u = code)) as [Heq|].
    + intros [= <-]. rewrite Heq in Hroom. assert (room0 = room) as -> by congruence. auto.
    + intros H. assert (room' = room) as -> by congruence. auto.
Qed.

Lemma room_identity_stable_witness :
  (rooms (state_after alice_and_bob) !! "ABC123"
     = Some (joined "s2" "Bob" (created "s1" "Alice" "ABC123" 0)) ∧
   rooms (step (Disconnect "s1") (state_after alice_and_bob)).1 !! "ABC123"
     = Some (left "s1" (joined "s2" "Bob" (created "s1" "Alice" "ABC123" 0))) ∧
   ¬ redraws "ABC123" (Disconnect "s1")) ∧
  room_host (left "s1" (joined "s2" "Bob" (created "s1" "Alice" "ABC123" 0))) = "s1".
Proof.
  assert (H1 : rooms (state_after alice_and_bob) !! "ABC123"
                 = Some (joined "s2" "Bob" (created "s1" "Alice" "ABC123" 0)))
    by (vm_compute; reflexivity).
  assert (H2 : rooms (step (Disconnect "s1") (state_after alice_and_bob)).1 !! "ABC123"
                 = Some (left "s1" (joined "s2" "Bob" (created "s1" "Alice" "ABC123" 0))))
    by (vm_compute; reflexivity).
  assert (H3 : ¬ redraws "ABC123" (Disconnect "s1")) by (intros []).
  split; [auto|].
  exact (proj1 (proj2 (room_identity_stable (Disconnect "s1") (state_after alice_and_bob)
                         "ABC123" _ _ H1 H2 H3))).
Defined.

Lemma event_touches_one_room_witness :
  "s2" ≠ event_socket (Disconnect "s1") ∧
  users (step (Disconnect "s1") (state_after alice_and_bob)).1 !! "s2"
    = users (state_after alice_and_bob) !! "s2".
Proof.
  assert (H : "s2" ≠ event_socket (Disconnect "s1")) by discriminate.
  split; [exact H|].
  exact (proj2 (event_touches_one_room (Disconnect "s1") (state_after alice_and_bob)) "s2" H).
Defined.

(** ** Subscriptions outlive room changes *)

Lemma step_keeps_sio_room e st c r :
  e ≠ Disconnect c → in_sio_room c r (sio_rooms st) →
  in_sio_room c r (sio_rooms (step e st).1).
Proof.
  intros Hne Hin. rewrite step_sio_rooms.
  destruct e as [s|s name rnd now|s roomCode name|s t o|s t a|s t c0|s au la|s];
    cbn [adapter_after]; try exact Hin;
    try (apply in_sio_room_add; right; exact Hin).
  - destruct (joins_room st roomCode); [apply in_sio_room_add; right|]; exact Hin.
  - apply in_sio_room_del_all. split; [congruence | exact Hin].
Qed.

(** X12. The server never takes a socket out of a socket.io room before
    the socket closes: once a connection has created or joined a room, it
    stays subscribed to that room's sends through every later event that
    is not its own close, also after it has joined or created another
    room; each later [socket.to] send to the old room by another socket
    still reaches it. *)
Theorem subscription_outlives_room_change (evs : list Event) (st : State) (c r : string)
    (Hin : in_sio_room c r (sio_rooms st))
    (Hopen : Forall (λ e, e ≠ Disconnect c) evs) :
  in_sio_room c r (sio_rooms (run evs st).1) ∧
  ∀ t ev, t ≠ c → (c, ev) ∈ deliveries (sio_rooms (run evs st).1) [SocketTo t r ev].
Proof.
  assert (H : in_sio_room c r (sio_rooms (run evs st).1)).
  { revert st Hin. induction Hopen as [|e evs He _ IH]; intros st Hin; [exact Hin|].
    rewrite run_cons. apply IH, step_keeps_sio_room; assumption. }
  split; [exact H|]. intros t ev Hne. apply registered_in_deliveries; auto.
Qed.

Lemma subscription_outlives_room_change_witness :
  (in_sio_room "s1" "ABC123" (sio_rooms (state_after two_rooms)) ∧
   Forall (λ e, e ≠ Disconnect "s1")
     [JoinRoom "s1" "XYZ789" "Alice"; Connection "s3"; JoinRoom "s3" "ABC123" "Cat"]) ∧
  ("s1", UserJoined "s3" "Cat" [])
    ∈ deliveries
        (sio_rooms (run [JoinRoom "s1" "XYZ789" "Alice"; Connection "s3";
                         JoinRoom "s3" "ABC123" "Cat"] (state_after two_rooms)).1)
        [SocketTo "s3" "ABC123" (UserJoined "s3" "Cat" [])].
Proof.
  assert (H1 : in_sio_room "s1" "ABC123" (sio_rooms (state_after two_rooms))).
  { unfold in_sio_room.
    assert (E : sio_rooms (state_after two_rooms) !! "ABC123" = Some {[ "s1" ]})
      by (vm_compute; reflexivity).
    rewrite E. cbn. apply elem_of_singleton. reflexivity. }
  assert (H2 : Forall (λ e, e ≠ Disconnect "s1")
                 [JoinRoom "s1" "XYZ789" "Alice"; Connection "s3";
                  JoinRoom "s3" "ABC123" "Cat"]).
  { repeat (apply Forall_cons; split; [discriminate|]). apply Forall_nil. exact I. }
  assert (H3 : "s3" ≠ "s1") by discriminate.
  split; [auto|].
  exact (proj2 (subscription_outlives_room_change _ (state_after two_rooms) "s1" "ABC123" H1 H2)
           "s3" (UserJoined "s3" "Cat" []) H3).
Defined.

(** ** User lists sent to clients *)

(** X13. Every user list the server sends is the member list it holds.
    For each event, the list carried by [room-created], [room-joined],
    [user-joined] or [user-left] equals the member list stored for that
    room in the state the event leaves; a [user-left] for a room deleted
    by that event carries the empty list. *)
Theorem sent_lists_match_store (e : Event) (st : State) :
  Forall (snapshot_ok (step e st).1) (step e st).2.
Proof.
  destruct e as [s|s name rnd now|s roomCode name|s t o|s t a|s t c|s au la|s].
  - apply Forall_nil. exact I.
  - unfold step, handle. rewrite exec_create_room. cbn [fst snd].
    apply Forall_cons. split; [|apply Forall_nil; exact I].
    cbn [snapshot_ok rooms]. eexists. rewrite lookup_insert_eq. split; reflexivity.
  - unfold step, handle.
    destruct (rooms st !! roomCode) as [room|] eqn:Hroom.
    + destruct (Nat.lt_ge_cases (JsMap.size (room_users room)) 4) as [Hlt|Hge].
      * rewrite (exec_join_room_ok _ _ _ _ _ Hroom Hlt). cbn [fst snd].
        repeat (apply Forall_cons; split); [| |apply Forall_nil; exact I];
          cbn [snapshot_ok rooms]; eexists; rewrite lookup_insert_eq; split; reflexivity.
      * rewrite (exec_join_room_full _ _ _ _ _ Hroom Hge).
        apply Forall_cons. split; [exact I | apply Forall_nil; exact I].
    + rewrite (exec_join_room_missing _ _ _ _ Hroom).
      apply Forall_cons. split; [exact I | apply Forall_nil; exact I].
  - apply Forall_cons. split; [exact I | apply Forall_nil; exact I].
  - apply Forall_cons. split; [exact I | apply Forall_nil; exact I].
  - apply Forall_cons. split; [exact I | apply Forall_nil; exact I].
  - unfold step, handle, exec, translation_audio, users_get, socket_to, mbind, M_bind, mret, M_ret.
    destruct (users st !! s); cbn;
      [apply Forall_cons; split; [exact I|]|]; apply Forall_nil; exact I.
  - destruct (users st !! s) as [u|] eqn:Hu.
    + destruct (rooms st !! user_roomCode u) as [room|] eqn:Hroom.
      * destruct (step_disconnect_registered st s u room Hu Hroom) as (Hout & _ & Hrooms).
        rewrite Hout. apply Forall_cons. split; [|apply Forall_nil; exact I].
        cbn [snapshot_ok]. rewrite Hrooms.
        destruct (decide (JsMap.size (JsMap.delete s (room_users room)) = 0)) as [Hz|Hnz].
        -- rewrite lookup_delete_eq.
           destruct (JsMap.delete s (room_users room)); [reflexivity | discriminate].
        -- rewrite lookup_insert_eq. reflexivity.
      * rewrite step_disconnect.
        rewrite (exec_disconnect_no_room (mkState _ _ _) s u Hu Hroom).
        apply Forall_nil. exact I.
    + rewrite step_disconnect. rewrite (exec_disconnect_unknown (mkState _ _ _) s Hu).
      apply Forall_nil. exact I.
Qed.

Lemma sent_lists_match_store_witness :
  Forall (snapshot_ok (step (Disconnect "s1") (state_after alice_and_bob)).1)
    (step (Disconnect "s1") (state_after alice_and_bob)).2.
Proof. exact (sent_lists_match_store (Disconnect "s1") (state_after alice_and_bob)). Defined.

(** ** Creating, then joining *)

(** X14. From any state, when one connection creates a room and another
    connection then joins it under the code that was returned, the join
    succeeds: the joiner receives [room-joined] with [isHost] false and
    the list [creator (host), joiner], the same list goes to the room as
    [user-joined], and both connections are registered under the code. *)
Theorem create_then_join (st : State) (s t hostName guestName rnd : string) (now : Z)
    (Hdiff : s ≠ t) :
  let code := generateRoomCode rnd in
  let st1 := (exec (create_room s hostName rnd now) st).1 in
  let st2 := (exec (join_room t code guestName) st1).1 in
  let members := [mkParticipant s hostName true; mkParticipant t guestName false] in
  (exec (join_room t code guestName) st1).2
    = [SocketTo t code (UserJoined t guestName members);
       SocketEmit t (RoomJoined code members false)] ∧
  rooms st2 !! code
    = Some (mkRoom code s [(s, mkParticipant s hostName true);
                           (t, mkParticipant t guestName false)] now) ∧
  users st2 !! s = Some (mkUserEntry code hostName) ∧
  users st2 !! t = Some (mkUserEntry code guestName).
Proof.
  intros code st1 st2 members. subst st2 st1.
  rewrite exec_create_room. cbn [fst].
  erewrite exec_join_room_ok;
    [|cbn [rooms]; apply lookup_insert_eq | unfold JsMap.size; simpl; repeat constructor].
  cbn [fst snd rooms users]. fold code.
  assert (Hroom : joined t guestName (created s hostName code now)
            = mkRoom code s [(s, mkParticipant s hostName true);
                             (t, mkParticipant t guestName false)] now).
  { unfold joined, created. cbn. destruct (decide (s = t)); [contradiction | reflexivity]. }
  rewrite Hroom. split; [reflexivity|]. split; [apply lookup_insert_eq|]. split.
  - rewrite lookup_insert_ne by (intros E; apply Hdiff; symmetry; exact E).
    apply lookup_insert_eq.
  - apply lookup_insert_eq.
Qed.

Lemma create_then_join_witness :
  "s1" ≠ "s2" ∧
  (exec (join_room "s2" (generateRoomCode "0.abc123") "Bob")
     (exec (create_room "s1" "Alice" "0.abc123" 0) init).1).2
    = [SocketTo "s2" (generateRoomCode "0.abc123")
         (UserJoined "s2" "Bob"
            [mkParticipant "s1" "Alice" true; mkParticipant "s2" "Bob" false]);
       SocketEmit "s2"
         (RoomJoined (generateRoomCode "0.abc123")
            [mkParticipant "s1" "Alice" true; mkParticipant "s2" "Bob" false] false)].
Proof.
  assert (H : "s1" ≠ "s2") by discriminate.
  split; [exact H|].
  exact (proj1 (create_then_join init "s1" "s2" "Alice" "Bob" "0.abc123" 0 H)).
Defined.

Lemma join_room_next st t code name room :
  rooms st !! code = Some room →
  JsMap.size (room_users room) < 4 →
  rooms (exec (join_room t code name) st).1 !! code = Some (joined t name room).
Proof.
  intros Hroom Hlt. rewrite (exec_join_room_ok st t code name room Hroom Hlt).
  apply lookup_insert_eq.
Qed.

(** X15. The capacity of four is reached and not exceeded: from any
    state, after one connection creates a room and three further,
    pairwise different connections join it, all four are members, in
    that order, and a [join-room] for the room handled in that state,
    from any connection and under any name, is answered with 'Room is
    full' and changes nothing. *)
Theorem room_takes_exactly_four (st : State) (s1 s2 s3 s4 : string)
    (n1 n2 n3 n4 rnd : string) (now : Z)
    (Hdistinct : NoDup [s1; s2; s3; s4]) :
  let code := generateRoomCode rnd in
  let st4 :=
    (exec (join_room s4 code n4)
       (exec (join_room s3 code n3)
          (exec (join_room s2 code n2)
             (exec (create_room s1 n1 rnd now) st).1).1).1).1 in
  rooms st4 !! code
    = Some (mkRoom code s1
              [(s1, mkParticipant s1 n1 true); (s2, mkParticipant s2 n2 false);
               (s3, mkParticipant s3 n3 false); (s4, mkParticipant s4 n4 false)] now) ∧
  ∀ s5 n5, exec (join_room s5 code n5) st4 = (st4, [SocketEmit s5 (Error "Room is full")]).
Proof.
  intros code st4.
  apply NoDup_cons in Hdistinct as [H1 Hdistinct].
  apply NoDup_cons in Hdistinct as [H2 Hdistinct].
  apply NoDup_cons in Hdistinct as [H3 _].
  repeat rewrite not_elem_of_cons in H1.
  repeat rewrite not_elem_of_cons in H2.
  repeat rewrite not_elem_of_cons in H3.
  destruct H1 as (H12 & H13 & H14 & _), H2 as (H23 & H24 & _), H3 as (H34 & _).
  assert (Hroom : rooms st4 !! code
            = Some (mkRoom code s1
                      [(s1, mkParticipant s1 n1 true); (s2, mkParticipant s2 n2 false);
                       (s3, mkParticipant s3 n3 false); (s4, mkParticipant s4 n4 false)] now)).
  { assert (Hshape : joined s4 n4 (joined s3 n3 (joined s2 n2 (created s1 n1 code now)))
              = mkRoom code s1
                  [(s1, mkParticipant s1 n1 true); (s2, mkParticipant s2 n2 false);
                   (s3, mkParticipant s3 n3 false); (s4, mkParticipant s4 n4 false)] now).
    { unfold joined, created; cbn.
      destruct (decide (s1 = s2)); [contradiction|]; cbn.
      destruct (decide (s1 = s3)); [contradiction|].
      destruct (decide (s2 = s3)); [contradiction|]; cbn.
      destruct (decide (s1 = s4)); [contradiction|].
      destruct (decide (s2 = s4)); [contradiction|].
      destruct (decide (s3 = s4)); [contradiction|]. reflexivity. }
    rewrite <- Hshape. subst st4.
    apply join_room_next; [apply join_room_next; [apply join_room_next|]|].
    - rewrite exec_create_room. apply lookup_insert_eq.
    - unfold JsMap.size. simpl. repeat constructor.
    - unfold JsMap.size, joined, created; cbn.
      destruct (decide (s1 = s2)); [contradiction|]. simpl. repeat constructor.
    - unfold JsMap.size, joined, created; cbn.
      destruct (decide (s1 = s2)); [contradiction|]; cbn.
      destruct (decide (s1 = s3)); [contradiction|].
      destruct (decide (s2 = s3)); [contradiction|]. simpl. repeat constructor. }
  split; [exact Hroom|]. intros s5 n5.
  apply (exec_join_room_full st4 s5 code n5 _ Hroom). unfold JsMap.size. simpl. lia.
Qed.

Lemma room_takes_exactly_four_witness :
  NoDup ["s1"; "s2"; "s3"; "s4"] ∧
  ∀ s5 n5,
    exec (join_room s5 (generateRoomCode "0.abc123") n5)
      (exec (join_room "s4" (generateRoomCode "0.abc123") "Dan")
         (exec (join_room "s3" (generateRoomCode "0.abc123") "Cat")
            (exec (join_room "s2" (generateRoomCode "0.abc123") "Bob")
               (exec (create_room "s1" "Alice" "0.abc123" 0) init).1).1).1).1
    = ((exec (join_room "s4" (generateRoomCode "0.abc123") "Dan")
          (exec (join_room "s3" (generateRoomCode "0.abc123") "Cat")
             (exec (join_room "s2" (generateRoomCode "0.abc123") "Bob")
                (exec (create_room "s1" "Alice" "0.abc123" 0) init).1).1).1).1,
       [SocketEmit s5 (Error "Room is full")]).
Proof.
  assert (H : NoDup ["s1"; "s2"; "s3"; "s4"]).
  { repeat (apply NoDup_cons; split;
            [repeat rewrite not_elem_of_cons; repeat split; try discriminate;
             apply not_elem_of_nil|]).
    apply NoDup_nil. exact I. }
  split; [exact H|].
  exact (proj2 (room_takes_exactly_four init "s1" "s2" "s3" "s4"
                  "Alice" "Bob" "Cat" "Dan" "0.abc123" 0 H)).
Defined.

(** ** Format of the room code *)

Lemma upper_ascii_idem c :
  JsString.upper_ascii (JsString.upper_ascii c) = JsString.upper_ascii c.
Proof. destruct c as [[] [] [] [] [] [] [] []]; reflexivity. Qed.

Lemma toUpperCase_idem s :
  JsString.toUpperCase (JsString.toUpperCase s) = JsString.toUpperCase s.
Proof.
  induction s as [|c s IH]; [reflexivity|].
  cbn [JsString.toUpperCase]. rewrite upper_ascii_idem, IH. reflexivity.
Qed.

Lemma toUpperCase_length s : String.length (JsString.toUpperCase s) = String.length s.
Proof. induction s as [|c s IH]; [reflexivity|]. cbn. rewrite IH. reflexivity. Qed.

Lemma substring_prefix_length n s :
  String.length (String.substring 0 n s) = Nat.min n (String.length s).
Proof.
  revert n. induction s as [|c s IH]; intros [|n]; try reflexivity.
  cbn [String.substring String.length]. rewrite IH. reflexivity.
Qed.

Lemma substring_prefix_split n s :
  ∃ rest, s = String.append (String.substring 0 n s) rest.
Proof.
  revert n. induction s as [|c s IH]; intros [|n].
  - exists EmptyString. reflexivity.
  - exists EmptyString. reflexivity.
  - exists (String c s). reflexivity.
  - destruct (IH n) as [rest Hrest]. exists rest.
    cbn [String.substring].
    change (String c s = String c (String.append (String.substring 0 n s) rest)).
    f_equal. exact Hrest.
Qed.

(** X16. For a draw whose base-36 text is ["0."] followed by the digits
    [ds], the room code is the first six digits in upper case, or all of
    them when there are fewer than six: [ds] splits into a prefix of
    length [min 6 |ds|] and a rest, and the code is that prefix
    uppercased.  So its length is [min 6 |ds|], every character is a
    digit or an uppercase letter, and uppercasing it again gives the same
    code. *)
Theorem generateRoomCode_format (ds : string)
    (Hdigits : JsString.forallb JsString.is_radix36_digit ds = true) :
  let code := generateRoomCode (String.append "0." ds) in
  (∃ prefix rest,
     ds = String.append prefix rest ∧
     String.length prefix = Nat.min 6 (String.length ds) ∧
     code = JsString.toUpperCase prefix) ∧
  String.length code = Nat.min 6 (String.length ds) ∧
  JsString.forallb JsString.is_upper_alnum code = true ∧
  JsString.toUpperCase code = code.
Proof.
  intros code.
  assert (Hcode : code = JsString.toUpperCase (String.substring 0 6 ds)) by reflexivity.
  split; [|rewrite Hcode; split; [|split]].
  - destruct (substring_prefix_split 6 ds) as [rest Hrest].
    exists (String.substring 0 6 ds), rest.
    split; [exact Hrest|]. split; [apply substring_prefix_length | exact Hcode].
  - rewrite toUpperCase_length. apply substring_prefix_length.
  - exact (proj2 (toUpperCase_prefix_shape ds 6 Hdigits)).
  - apply toUpperCase_idem.
Qed.

Lemma generateRoomCode_format_witness :
  JsString.forallb JsString.is_radix36_digit "k7x2m9qp4" = true ∧
  ∃ prefix rest,
    "k7x2m9qp4" = String.append prefix rest ∧
    String.length prefix = Nat.min 6 (String.length "k7x2m9qp4") ∧
    generateRoomCode (String.append "0." "k7x2m9qp4") = JsString.toUpperCase prefix.
Proof.
  assert (H : JsString.forallb JsString.is_radix36_digit "k7x2m9qp4" = true) by reflexivity.
  split; [exact H|]. exact (proj1 (generateRoomCode_format "k7x2m9qp4" H)).
Defined.

(** * Properties of the client *)

(** ** Trimming *)

Module JsTextFacts.

Lemma append_cons c a b : String.append (String c a) b = String c (String.append a b).
Proof. reflexivity. Qed.

Lemma append_nil b : String.append EmptyString b = b.
Proof. reflexivity. Qed.

Lemma trimStart_blank s : blank s → JsText.trimStart s = EmptyString.
Proof.
  unfold blank. induction s as [|c s IH]; [reflexivity|].
  cbn [JsString.forallb JsText.trimStart]. intros H.
  apply andb_true_iff in H as [Hc Hs]. rewrite Hc. auto.
Qed.

Lemma trimStart_empty_blank s : JsText.trimStart s = EmptyString → blank s.
Proof.
  unfold blank. induction s as [|c s IH]; [reflexivity|].
  cbn [JsString.forallb JsText.trimStart].
  destruct (JsText.is_white_space c); [auto | discriminate].
Qed.

Lemma trimStart_app_blank ws s :
  blank ws → JsText.trimStart (String.append ws s) = JsText.trimStart s.
Proof.
  unfold blank. induction ws as [|c ws IH]; [reflexivity|].
  rewrite append_cons. cbn [JsString.forallb JsText.trimStart]. intros H.
  apply andb_true_iff in H as [Hc Hs]. rewrite Hc. auto.
Qed.

Lemma trimEnd_blank s : blank s → JsText.trimEnd s = EmptyString.
Proof.
  unfold blank. induction s as [|c s IH]; [reflexivity|].
  cbn [JsString.forallb JsText.trimEnd]. intros H.
  apply andb_true_iff in H as [Hc Hs]. rewrite (IH Hs), Hc. reflexivity.
Qed.

Lemma trimEnd_app_blank s ws :
  blank ws → JsText.trimEnd (String.append s ws) = JsText.trimEnd s.
Proof.
  intros Hws. induction s as [|c s IH]; [exact (trimEnd_blank ws Hws)|].
  rewrite append_cons. cbn [JsText.trimEnd]. rewrite IH. reflexivity.
Qed.

(** Text without white space is left as it is. *)
Lemma trimEnd_solid s :
  JsString.forallb (λ c, negb (JsText.is_white_space c)) s = true → JsText.trimEnd s = s.
Proof.
  induction s as [|c s IH]; [reflexivity|].
  cbn [JsString.forallb JsText.trimEnd]. intros H.
  apply andb_true_iff in H as [Hc Hs]. rewrite (IH Hs).
  destruct s; [|reflexivity].
  destruct (JsText.is_white_space c); [discriminate | reflexivity].
Qed.

Lemma trimStart_solid s :
  JsString.forallb (λ c, negb (JsText.is_white_space c)) s = true → JsText.trimStart s = s.
Proof.
  destruct s as [|c s]; [reflexivity|].
  cbn [JsString.forallb JsText.trimStart]. intros H.
  apply andb_true_iff in H as [Hc _].
  destruct (JsText.is_white_space c); [discriminate | reflexivity].
Qed.

(** The result of [trimStart] is empty or starts with a character that is
    not white space. *)
Lemma trimStart_head s :
  match JsText.trimStart s with
  | EmptyString => True
  | String c _ => JsText.is_white_space c = false
  end.
Proof.
  induction s as [|c s IH]; [exact I|].
  cbn [JsText.trimStart]. destruct (JsText.is_white_space c) eqn:Hc; [exact IH | exact Hc].
Qed.

Lemma trimEnd_head c s :
  JsText.is_white_space c = false →
  ∃ r, JsText.trimEnd (String c s) = String c r.
Proof.
  intros Hc. cbn [JsText.trimEnd]. destruct (JsText.trimEnd s); [|eauto].
  rewrite Hc. eauto.
Qed.

Lemma trimEnd_idem s : JsText.trimEnd (JsText.trimEnd s) = JsText.trimEnd s.
Proof.
  induction s as [|c s IH]; [reflexivity|].
  cbn [JsText.trimEnd]. destruct (JsText.trimEnd s) as [|c' r] eqn:E.
  - destruct (JsText.is_white_space c) eqn:Hc; [reflexivity|].
    cbn [JsText.trimEnd]. rewrite Hc. reflexivity.
  - change (JsText.trimEnd (String c (String c' r)))
      with (match JsText.trimEnd (String c' r) with
            | EmptyString => if JsText.is_white_space c then EmptyString
                             else String c EmptyString
            | String c'' r' => String c (String c'' r')
            end).
    rewrite IH. reflexivity.
Qed.

Lemma trim_idem s : JsText.trim (JsText.trim s) = JsText.trim s.
Proof.
  unfold JsText.trim. pose proof (trimStart_head s) as Hhead.
  destruct (JsText.trimStart s) as [|c t]; [reflexivity|].
  destruct (trimEnd_head c t Hhead) as [r Hr]. rewrite Hr.
  cbn [JsText.trimStart]. rewrite Hhead, <- Hr. apply trimEnd_idem.
Qed.

Lemma trim_blank s : blank s → JsText.trim s = EmptyString.
Proof. intros H. unfold JsText.trim. rewrite (trimStart_blank s H). reflexivity. Qed.

Lemma trim_empty_blank s : JsText.trim s = EmptyString → blank s.
Proof.
  unfold JsText.trim. intros H. apply trimStart_empty_blank.
  pose proof (trimStart_head s) as Hhead.
  destruct (JsText.trimStart s) as [|c t]; [reflexivity|].
  destruct (trimEnd_head c t Hhead) as [r Hr]. congruence.
Qed.

Lemma trim_padded pre s post :
  blank pre → blank post →
  JsString.forallb (λ c, negb (JsText.is_white_space c)) s = true →
  JsText.trim (String.append pre (String.append s post)) = s.
Proof.
  intros Hpre Hpost Hs. unfold JsText.trim. rewrite (trimStart_app_blank pre _ Hpre).
  destruct s as [|c s].
  - rewrite append_nil, (trimStart_blank post Hpost). reflexivity.
  - assert (Hc : JsText.is_white_space c = false).
    { cbn [JsString.forallb] in Hs. apply andb_true_iff in Hs as [Hc _].
      destruct (JsText.is_white_space c); [discriminate | reflexivity]. }
    rewrite append_cons. cbn [JsText.trimStart]. rewrite Hc, <- append_cons.
    rewrite (trimEnd_app_blank _ post Hpost). apply trimEnd_solid, Hs.
Qed.

Lemma is_empty_toUpperCase s :
  JsText.is_empty (JsString.toUpperCase s) = JsText.is_empty s.
Proof. destruct s; reflexivity. Qed.

Lemma is_empty_false s : JsText.is_empty s = false ↔ s ≠ EmptyString.
Proof. destruct s; cbn; split; congruence. Qed.

Lemma upper_alnum_solid s :
  JsString.forallb JsString.is_upper_alnum s = true →
  JsString.forallb (λ c, negb (JsText.is_white_space c)) s = true.
Proof.
  induction s as [|c s IH]; [reflexivity|].
  cbn [JsString.forallb]. intros H. apply andb_true_iff in H as [Hc Hs].
  rewrite (IH Hs), andb_true_r. revert Hc.
  destruct c as [[] [] [] [] [] [] [] []]; vm_compute; congruence.
Qed.

End JsTextFacts.

(** ** The home screen form *)

(** X17. The home screen never emits a blank name or a blank room code,
    and emits only with a socket that is connected: whatever it emits
    carries the trimmed name, not empty and free of white space at both
    ends, and for a join the trimmed and uppercased code, not empty.  A
    name that is empty or all white space stops both buttons with the
    message 'Please enter your name', before the connection is looked at
    and without touching [loading]. *)
Theorem home_screen_never_sends_blank (h : HomeScreen)
    (Hname : JsText.ascii_text (home_name h))
    (Hcode : JsText.ascii_text (home_roomCode h)) :
  (∀ e, e ∈ (handleCreateRoom h).2 ∨ e ∈ (handleJoinRoom h).2 →
     is_Some (home_socket h) ∧ home_connected h = true ∧
     match e with
     | EmitCreateRoom n =>
         n = JsText.trim (home_name h) ∧ n ≠ EmptyString ∧ JsText.trim n = n
     | EmitJoinRoom n c =>
         n = JsText.trim (home_name h) ∧ n ≠ EmptyString ∧ JsText.trim n = n ∧
         c = JsString.toUpperCase (JsText.trim (home_roomCode h)) ∧
         c ≠ EmptyString ∧ JsString.toUpperCase c = c
     end) ∧
  (blank (home_name h) →
     handleCreateRoom h = (setError "Please enter your name" h, []) ∧
     handleJoinRoom h = (setError "Please enter your name" h, [])).
Proof.
  split.
  - intros e He. unfold handleCreateRoom, handleJoinRoom, not_connected in He.
    destruct (JsText.is_empty (JsText.trim (home_name h))) eqn:En.
    { destruct He as [He|He]; inversion He. }
    apply JsTextFacts.is_empty_false in En.
    destruct (home_socket h) as [sid|]; cbn [negb] in He.
    2:{ destruct (JsText.is_empty (JsText.trim (home_roomCode h)));
          destruct He as [He|He]; inversion He. }
    destruct (home_connected h); cbn [negb] in He.
    2:{ destruct (JsText.is_empty (JsText.trim (home_roomCode h)));
          destruct He as [He|He]; inversion He. }
    split; [eauto|]. split; [reflexivity|].
    destruct He as [He|He].
    + apply list_elem_of_singleton in He. subst e.
      split; [reflexivity|]. split; [exact En | apply JsTextFacts.trim_idem].
    + destruct (JsText.is_empty (JsText.trim (home_roomCode h))) eqn:Ec; [inversion He|].
      apply list_elem_of_singleton in He. subst e.
      split; [reflexivity|]. split; [exact En|]. split; [apply JsTextFacts.trim_idem|].
      split; [reflexivity|]. split; [|apply toUpperCase_idem].
      apply JsTextFacts.is_empty_false. rewrite JsTextFacts.is_empty_toUpperCase. exact Ec.
  - intros Hblank. unfold handleCreateRoom, handleJoinRoom.
    rewrite (JsTextFacts.trim_blank _ Hblank). split; reflexivity.
Qed.

Lemma home_screen_never_sends_blank_witness :
  (JsText.ascii_text (home_name (mkHomeScreen "   " "abc123" false "old" (Some "s2") true)) ∧
   JsText.ascii_text (home_roomCode (mkHomeScreen "   " "abc123" false "old" (Some "s2") true)) ∧
   blank (home_name (mkHomeScreen "   " "abc123" false "old" (Some "s2") true))) ∧
  handleJoinRoom (mkHomeScreen "   " "abc123" false "old" (Some "s2") true)
    = (mkHomeScreen "   " "abc123" false "Please enter your name" (Some "s2") true, []).
Proof.
  assert (H1 : JsText.ascii_text "   ") by reflexivity.
  assert (H2 : JsText.ascii_text "abc123") by reflexivity.
  assert (H3 : blank "   ") by reflexivity.
  split; [auto|].
  exact (proj2 (proj2 (home_screen_never_sends_blank
                         (mkHomeScreen "   " "abc123" false "old" (Some "s2") true) H1 H2) H3)).
Defined.

(** X18. A room code as the server generated it from a draw with at
    least one digit (so the code is not empty), typed into the join form
    with any white space around it, reaches the server as that code when
    the name in the form is ASCII and not blank and the socket is
    connected: the form emits one [join-room] carrying the trimmed name
    and exactly the code; and when the room is live with a free place,
    the server answers that event without an [error], and the connection
    is a member of the room and registered under the code and the trimmed
    name. *)
Theorem typed_code_joins_room (st : State) (h : HomeScreen) (sid ds pre post : string)
    (room : Room) (rnd : string) (now : Z)
    (Hdigits : JsString.forallb JsString.is_radix36_digit ds = true)
    (Hds : ds ≠ EmptyString)
    (Htyped : home_roomCode h
              = String.append pre
                  (String.append (generateRoomCode (String.append "0." ds)) post))
    (Hpre : blank pre) (Hpost : blank post)
    (Hname : JsText.ascii_text (home_name h))
    (Hnamed : ¬ blank (home_name h))
    (Hsocket : home_socket h = Some sid)
    (Hconnected : home_connected h = true)
    (Hlive : rooms st !! generateRoomCode (String.append "0." ds) = Some room)
    (Hplace : JsMap.size (room_users room) < 4) :
  let code := generateRoomCode (String.append "0." ds) in
  let name := JsText.trim (home_name h) in
  (handleJoinRoom h).2 = [EmitJoinRoom name code] ∧
  ∀ e, e ∈ (handleJoinRoom h).2 →
    no_error (step (server_event sid rnd now e) st).2 ∧
    member_of sid code (step (server_event sid rnd now e) st).1 ∧
    users (step (server_event sid rnd now e) st).1 !! sid = Some (mkUserEntry code name).
Proof.
  intros code name.
  assert (Hcode : code = JsString.toUpperCase (String.substring 0 6 ds)) by reflexivity.
  assert (Halnum : JsString.forallb JsString.is_upper_alnum code = true).
  { rewrite Hcode. exact (proj2 (toUpperCase_prefix_shape ds 6 Hdigits)). }
  assert (Hnonempty : JsText.is_empty code = false).
  { apply JsTextFacts.is_empty_false. intros E.
    assert (Hlen : String.length code = Nat.min 6 (String.length ds)).
    { rewrite Hcode, toUpperCase_length. apply substring_prefix_length. }
    rewrite E in Hlen. destruct ds as [|d ds']; [congruence|]. cbn in Hlen. lia. }
  fold code in Hlive, Htyped.
  assert (Htrim : JsText.trim (home_roomCode h) = code).
  { rewrite Htyped. apply JsTextFacts.trim_padded; [exact Hpre | exact Hpost|].
    apply JsTextFacts.upper_alnum_solid, Halnum. }
  assert (Hupper : JsString.toUpperCase code = code).
  { rewrite Hcode. apply toUpperCase_idem. }
  assert (Hn : JsText.is_empty (JsText.trim (home_name h)) = false).
  { apply JsTextFacts.is_empty_false. intros E. apply Hnamed, JsTextFacts.trim_empty_blank, E. }
  assert (Hemit : (handleJoinRoom h).2 = [EmitJoinRoom name code]).
  { unfold handleJoinRoom, not_connected.
    rewrite Hn, Htrim, Hnonempty, Hsocket, Hconnected, Hupper. reflexivity. }
  split; [exact Hemit|]. intros e He. rewrite Hemit in He.
  apply list_elem_of_singleton in He. subst e. cbn [server_event].
  assert (Hmove : moves_to sid code st (JoinRoom sid code name)).
  { split; [reflexivity|]. split; [reflexivity|]. eauto. }
  destruct (move_effect st sid code (JoinRoom sid code name) Hmove)
    as (Hmem & _ & Hok & _).
  split; [exact Hok|]. split; [exact Hmem|].
  unfold step, handle. rewrite (exec_join_room_ok st sid code name room Hlive Hplace).
  apply lookup_insert_eq.
Qed.

Lemma typed_code_joins_room_witness :
  let h := mkHomeScreen " Bob " " ABC123  " false "old" (Some "s2") true in
  (JsString.forallb JsString.is_radix36_digit "abc123" = true ∧
   "abc123" ≠ EmptyString ∧
   home_roomCode h
     = String.append " " (String.append (generateRoomCode (String.append "0." "abc123")) "  ") ∧
   blank " " ∧ blank "  " ∧
   JsText.ascii_text (home_name h) ∧ ¬ blank (home_name h) ∧
   home_socket h = Some "s2" ∧ home_connected h = true ∧
   rooms (state_after alice_opens) !! generateRoomCode (String.append "0." "abc123")
     = Some (created "s1" "Alice" "ABC123" 0) ∧
   JsMap.size (room_users (created "s1" "Alice" "ABC123" 0)) < 4) ∧
  (handleJoinRoom h).2 = [EmitJoinRoom "Bob" "ABC123"].
Proof.
  intros h.
  assert (H1 : JsString.forallb JsString.is_radix36_digit "abc123" = true) by reflexivity.
  assert (H2 : "abc123" ≠ EmptyString) by discriminate.
  assert (H3 : home_roomCode h
                 = String.append " "
                     (String.append (generateRoomCode (String.append "0." "abc123")) "  "))
    by reflexivity.
  assert (H4 : blank " ") by reflexivity.
  assert (H5 : blank "  ") by reflexivity.
  assert (H6 : JsText.ascii_text (home_name h)) by reflexivity.
  assert (H7 : ¬ blank (home_name h)) by (intros E; discriminate E).
  assert (H8 : home_socket h = Some "s2") by reflexivity.
  assert (H9 : home_connected h = true) by reflexivity.
  assert (H10 : rooms (state_after alice_opens) !! generateRoomCode (String.append "0." "abc123")
                  = Some (created "s1" "Alice" "ABC123" 0)) by (vm_compute; reflexivity).
  assert (H11 : JsMap.size (room_users (created "s1" "Alice" "ABC123" 0)) < 4)
    by (unfold JsMap.size; simpl; repeat constructor).
  split; [repeat split; assumption|].
  exact (proj1 (typed_code_joins_room (state_after alice_opens) h "s2" "abc123" " " "  "
                  (created "s1" "Alice" "ABC123" 0) "0" 0
                  H1 H2 H3 H4 H5 H6 H7 H8 H9 H10 H11)).
Defined.

(** ** The participant list on the call screen *)

Lemma others_all (m : JsMap.t Participant) c :
  (∀ kp, kp ∈ m → id kp.2 = kp.1) → c ∉ JsMap.keys m →
  otherParticipants (JsMap.values m) (Some c) = JsMap.values m.
Proof.
  unfold otherParticipants, JsMap.values, JsMap.keys.
  induction m as [|[k q] m IH]; intros Hid Hnin; [reflexivity|].
  cbn in Hnin. apply not_elem_of_cons in Hnin as [Hne Hnin].
  assert (Hq : id q = k) by (apply (Hid (k, q)), elem_of_cons; left; reflexivity).
  cbn. rewrite bool_decide_eq_false_2 by (intros [= E]; rewrite Hq in E; congruence). cbn.
  f_equal. apply IH; [|exact Hnin].
  intros kp Hin. apply Hid, elem_of_cons. right. exact Hin.
Qed.

Lemma find_self (m : JsMap.t Participant) c p :
  (∀ kp, kp ∈ m → id kp.2 = kp.1) → NoDup (JsMap.keys m) →
  JsMap.get c m = Some p →
  currentUser (JsMap.values m) (Some c) = Some p ∧
  S (length (otherParticipants (JsMap.values m) (Some c))) = JsMap.size m.
Proof.
  unfold currentUser, JsMap.size.
  induction m as [|[k q] m IH]; intros Hid Hnd Hget; [discriminate|].
  assert (Hq : id q = k) by (apply (Hid (k, q)), elem_of_cons; left; reflexivity).
  assert (Hid' : ∀ kp, kp ∈ m → id kp.2 = kp.1).
  { intros kp Hin. apply Hid, elem_of_cons. right. exact Hin. }
  unfold JsMap.keys in Hnd. cbn in Hnd. apply NoDup_cons in Hnd as [Hnin Hnd].
  cbn in Hget. destruct (decide (k = c)) as [->|Hne].
  - injection Hget as <-. split.
    + unfold JsMap.values. cbn. rewrite bool_decide_eq_true_2 by (rewrite Hq; reflexivity).
      reflexivity.
    + pose proof (others_all m c Hid' Hnin) as Hall.
      unfold otherParticipants, JsMap.values in *. cbn.
      rewrite bool_decide_eq_true_2 by (rewrite Hq; reflexivity). cbn.
      rewrite Hall, length_fmap. reflexivity.
  - destruct (IH Hid' Hnd Hget) as [Hfind Hlen]. split.
    + unfold JsMap.values in *. cbn.
      rewrite bool_decide_eq_false_2 by (intros [= E]; rewrite Hq in E; congruence). exact Hfind.
    + unfold otherParticipants, JsMap.values in *. cbn.
      rewrite bool_decide_eq_false_2 by (intros [= E]; rewrite Hq in E; congruence). cbn.
      rewrite Hlen. reflexivity.
Qed.

Lemma currentUser_no_socket ps : currentUser ps None = None.
Proof. unfold currentUser. induction ps as [|q qs IH]; [reflexivity | exact IH]. Qed.

Lemma others_no_socket ps : otherParticipants ps None = ps.
Proof.
  unfold otherParticipants. induction ps as [|q qs IH]; [reflexivity|].
  cbn. f_equal. exact IH.
Qed.

(** X19. On every user list the server can send for a room, a client
    that is a member finds itself: [currentUser] is its own record, and
    [otherParticipants] are the remaining members, one fewer than the
    list and never more than three, none of them with the client's id.
    Without a socket, [currentUser] is undefined and everybody counts as
    another participant. *)
Theorem call_screen_partition (evs : list Event) (code : string) (room : Room)
    (c : string) (p : Participant)
    (Hlive : rooms (state_after evs) !! code = Some room)
    (Hmember : JsMap.get c (room_users room) = Some p) :
  let participants := JsMap.values (room_users room) in
  currentUser participants (Some c) = Some p ∧
  S (length (otherParticipants participants (Some c))) = length participants ∧
  length (otherParticipants participants (Some c)) ≤ 3 ∧
  (∀ q, q ∈ otherParticipants participants (Some c) → q ∈ participants ∧ id q ≠ c) ∧
  currentUser participants None = None ∧
  otherParticipants participants None = participants.
Proof.
  intros participants.
  destruct (rooms_inv_reachable evs code room Hlive) as ([_ Hhi] & (_ & Hnd & Hid) & _).
  assert (Hid' : ∀ kp, kp ∈ room_users room → id kp.2 = kp.1).
  { intros [k q] Hin. apply (Hid k q), JsMapOrder.elem_get; assumption. }
  destruct (find_self (room_users room) c p Hid' Hnd Hmember) as [Hfind Hlen].
  assert (Hsize : length participants = JsMap.size (room_users room)).
  { unfold participants, JsMap.values, JsMap.size. apply length_fmap. }
  fold participants in Hfind, Hlen.
  split; [exact Hfind|]. split; [rewrite Hsize; exact Hlen|]. split.
  { unfold MAX_ROOM_SIZE in Hhi. lia. }
  split.
  { intros q Hq. unfold otherParticipants in Hq.
    apply list_elem_of_In, filter_In in Hq as [Hin Hne].
    split; [apply list_elem_of_In, Hin|].
    apply negb_true_iff, bool_decide_eq_false in Hne. congruence. }
  split; [apply currentUser_no_socket | apply others_no_socket].
Qed.

Lemma call_screen_partition_witness :
  (rooms (state_after full_house) !! "ABC123" = Some full_room ∧
   JsMap.get "s3" (room_users full_room) = Some (mkParticipant "s3" "Cat" false)) ∧
  currentUser (JsMap.values (room_users full_room)) (Some "s3")
    = Some (mkParticipant "s3" "Cat" false) ∧
  S (length (otherParticipants (JsMap.values (room_users full_room)) (Some "s3")))
    = length (JsMap.values (room_users full_room)).
Proof.
  assert (H1 : rooms (state_after full_house) !! "ABC123" = Some full_room)
    by (vm_compute; reflexivity).
  assert (H2 : JsMap.get "s3" (room_users full_room) = Some (mkParticipant "s3" "Cat" false))
    by reflexivity.
  split; [auto|].
  destruct (call_screen_partition full_house "ABC123" full_room "s3"
              (mkParticipant "s3" "Cat" false) H1 H2) as (Ha & Hb & _).
  split; [exact Ha | exact Hb].
Defined.

(** ** The peer table *)

(** X20. [toggleMute] and [toggleVideo] flip the [enabled] flag of the
    first audio, respectively video, track and of nothing else, and
    return the state that track had before the call ([true], "muted",
    exactly when it was enabled and has just been disabled); toggling
    twice restores the manager; neither touches the other kind of track
    or the peers; and without a stream or without such a track the call
    leaves the manager as it is and returns [false]. *)
Theorem toggles_report_and_restore (m : WebRTCManager) :
  (toggleMute m).2 = getAudioState m ∧
  (toggleVideo m).2 = getVideoState m ∧
  (toggleMute (toggleMute m).1).1 = m ∧
  (toggleVideo (toggleVideo m).1).1 = m ∧
  getVideoState (toggleMute m).1 = getVideoState m ∧
  getAudioState (toggleVideo m).1 = getAudioState m ∧
  peers (toggleMute m).1 = peers m ∧
  peers (toggleVideo m).1 = peers m ∧
  (∀ stream enabled rest,
     localStream m = Some stream → audioTracks stream = enabled :: rest →
     toggleMute m
       = (mkManager (Some (mkStream (negb enabled :: rest) (videoTracks stream))) (peers m),
          enabled) ∧
     getAudioState (toggleMute m).1 = negb enabled) ∧
  (∀ stream enabled rest,
     localStream m = Some stream → videoTracks stream = enabled :: rest →
     toggleVideo m
       = (mkManager (Some (mkStream (audioTracks stream) (negb enabled :: rest))) (peers m),
          enabled) ∧
     getVideoState (toggleVideo m).1 = negb enabled) ∧
  (localStream m = None ∨ (∃ stream, localStream m = Some stream ∧ audioTracks stream = []) →
     toggleMute m = (m, false)) ∧
  (localStream m = None ∨ (∃ stream, localStream m = Some stream ∧ videoTracks stream = []) →
     toggleVideo m = (m, false)) ∧
  (getAudioState m = false → (toggleMute m).2 = false).
Proof.
  assert (Hmute : ∀ stream enabled rest,
            localStream m = Some stream → audioTracks stream = enabled :: rest →
            toggleMute m
              = (mkManager (Some (mkStream (negb enabled :: rest) (videoTracks stream)))
                   (peers m), enabled)).
  { intros stream enabled rest Hs Ha. unfold toggleMute. rewrite Hs, Ha, negb_involutive.
    reflexivity. }
  assert (Hvideo : ∀ stream enabled rest,
            localStream m = Some stream → videoTracks stream = enabled :: rest →
            toggleVideo m
              = (mkManager (Some (mkStream (audioTracks stream) (negb enabled :: rest)))
                   (peers m), enabled)).
  { intros stream enabled rest Hs Hv. unfold toggleVideo. rewrite Hs, Hv, negb_involutive.
    reflexivity. }
  assert (Hmute0 : localStream m = None
                   ∨ (∃ stream, localStream m = Some stream ∧ audioTracks stream = []) →
                   toggleMute m = (m, false)).
  { unfold toggleMute. intros [Hs|(stream & Hs & Ha)]; rewrite Hs; [|rewrite Ha]; reflexivity. }
  assert (Hvideo0 : localStream m = None
                    ∨ (∃ stream, localStream m = Some stream ∧ videoTracks stream = []) →
                    toggleVideo m = (m, false)).
  { unfold toggleVideo. intros [Hs|(stream & Hs & Hv)]; rewrite Hs; [|rewrite Hv]; reflexivity. }
  assert (Hbasic :
    (toggleMute m).2 = getAudioState m ∧
    (toggleVideo m).2 = getVideoState m ∧
    (toggleMute (toggleMute m).1).1 = m ∧
    (toggleVideo (toggleVideo m).1).1 = m ∧
    getVideoState (toggleMute m).1 = getVideoState m ∧
    getAudioState (toggleVideo m).1 = getAudioState m ∧
    peers (toggleMute m).1 = peers m ∧
    peers (toggleVideo m).1 = peers m).
  { clear. destruct m as [[[[|a audio] [|v video]]|] table];
      unfold toggleMute, toggleVideo, getAudioState, getVideoState; cbn;
      rewrite ?negb_involutive; repeat split; reflexivity. }
  destruct Hbasic as (B1 & B2 & B3 & B4 & B5 & B6 & B7 & B8).
  split; [exact B1|]. split; [exact B2|]. split; [exact B3|]. split; [exact B4|].
  split; [exact B5|]. split; [exact B6|]. split; [exact B7|]. split; [exact B8|].
  split; [|split; [|split; [exact Hmute0|split; [exact Hvideo0|]]]].
  - intros stream enabled rest Hs Ha. split; [exact (Hmute stream enabled rest Hs Ha)|].
    rewrite (Hmute stream enabled rest Hs Ha). reflexivity.
  - intros stream enabled rest Hs Hv. split; [exact (Hvideo stream enabled rest Hs Hv)|].
    rewrite (Hvideo stream enabled rest Hs Hv). reflexivity.
  - intros Hoff. rewrite B1. exact Hoff.
Qed.

Lemma toggles_report_and_restore_witness :
  (localStream (mkManager (Some (mkStream [true] [true])) ∅) = Some (mkStream [true] [true]) ∧
   videoTracks (mkStream [true] [true]) = [true] ∧
   (localStream (mkManager None ∅) = None
    ∨ (∃ stream, localStream (mkManager None ∅) = Some stream ∧ audioTracks stream = []))) ∧
  toggleVideo (mkManager (Some (mkStream [true] [true])) ∅)
    = (mkManager (Some (mkStream [true] [false])) ∅, true) ∧
  toggleMute (mkManager None ∅) = (mkManager None ∅, false).
Proof.
  assert (H1 : localStream (mkManager (Some (mkStream [true] [true])) ∅)
                 = Some (mkStream [true] [true])) by reflexivity.
  assert (H2 : videoTracks (mkStream [true] [true]) = [true]) by reflexivity.
  assert (H3 : localStream (mkManager None ∅) = None
               ∨ (∃ stream, localStream (mkManager None ∅) = Some stream
                            ∧ audioTracks stream = [])) by (left; reflexivity).
  split; [auto|].
  destruct (toggles_report_and_restore (mkManager (Some (mkStream [true] [true])) ∅))
    as (_ & _ & _ & _ & _ & _ & _ & _ & _ & Hv & _).
  destruct (toggles_report_and_restore (mkManager None ∅))
    as (_ & _ & _ & _ & _ & _ & _ & _ & _ & _ & Hnone & _).
  split; [exact (proj1 (Hv (mkStream [true] [true]) true [] H1 H2)) | exact (Hnone H3)].
Defined.

(** X21. [handleOffer] never replaces a peer: when the table already has
    a peer for the caller, that peer keeps its role, also when it was
    created as initiator, and the offer is handed to it after the signals
    it had; when it has none and media is ready, a non-initiator peer is
    created and given the offer; when it has none and there is no local
    stream, the offer is dropped.  The peers of all other users and the
    stream are left alone. *)
Theorem handleOffer_keeps_existing_peer (m : WebRTCManager) (offer : Payload)
    (callerId : string) :
  (∀ peer, peers m !! callerId = Some peer →
     peers (handleOffer offer callerId m) !! callerId
       = Some (mkPeer (peer_initiator peer) (peer_signalled peer ++ [offer]))) ∧
  (peers m !! callerId = None → is_Some (localStream m) →
     peers (handleOffer offer callerId m) !! callerId = Some (mkPeer false [offer])) ∧
  (peers m !! callerId = None → localStream m = None →
     handleOffer offer callerId m = m) ∧
  (∀ other, other ≠ callerId →
     peers (handleOffer offer callerId m) !! other = peers m !! other) ∧
  localStream (handleOffer offer callerId m) = localStream m.
Proof.
  unfold handleOffer, createPeerConnection, signal_peer.
  destruct (peers m !! callerId) as [peer|] eqn:Hpeer.
  - rewrite Hpeer. cbn [peers localStream]. split; [|split; [|split; [|split]]].
    + intros peer' [= <-]. apply lookup_insert_eq.
    + discriminate.
    + discriminate.
    + intros other Hne. apply lookup_insert_ne. congruence.
    + reflexivity.
  - destruct (localStream m) as [stream|] eqn:Hstream.
    + cbn [peers localStream]. rewrite lookup_insert_eq. cbn [peers localStream].
      split; [|split; [|split; [|split]]].
      * discriminate.
      * intros _ _. rewrite insert_insert_eq. apply lookup_insert_eq.
      * discriminate.
      * intros other Hne. rewrite insert_insert_eq. apply lookup_insert_ne. congruence.
      * first [reflexivity | exact Hstream | symmetry; exact Hstream].
    + rewrite Hpeer. split; [|split; [|split; [|split]]].
      * discriminate.
      * intros _ [x Hx]. discriminate.
      * reflexivity.
      * reflexivity.
      * first [reflexivity | exact Hstream | symmetry; exact Hstream].
Qed.

Lemma handleOffer_keeps_existing_peer_witness :
  peers (mkManager (Some (mkStream [true] [true])) {[ "s2" := mkPeer true [] ]}) !! "s2"
    = Some (mkPeer true []) ∧
  peers (handleOffer "sdp-offer" "s2"
           (mkManager (Some (mkStream [true] [true])) {[ "s2" := mkPeer true [] ]})) !! "s2"
    = Some (mkPeer true ["sdp-offer"]).
Proof.
  assert (H : peers (mkManager (Some (mkStream [true] [true])) {[ "s2" := mkPeer true [] ]})
                !! "s2" = Some (mkPeer true [])) by (vm_compute; reflexivity).
  split; [exact H|].
  exact (proj1 (handleOffer_keeps_existing_peer
                  (mkManager (Some (mkStream [true] [true])) {[ "s2" := mkPeer true [] ]})
                  "sdp-offer" "s2") (mkPeer true []) H).
Defined.

Lemma call_without_stream c m :
  localStream m = None →
  localStream (call c m) = None ∧
  ∀ userId peer, peers (call c m) !! userId = Some peer → is_Some (peers m !! userId).
Proof.
  intros Hnone.
  assert (Hsig : ∀ userId data,
            localStream (signal_peer userId data m) = None ∧
            ∀ x peer, peers (signal_peer userId data m) !! x = Some peer →
                      is_Some (peers m !! x)).
  { intros userId data. unfold signal_peer.
    destruct (peers m !! userId) as [pr|] eqn:Hp; cbn [localStream peers].
    - split; [exact Hnone|]. intros x peer. rewrite lookup_insert.
      destruct (decide (userId = x)) as [<-|]; [eauto | eauto].
    - split; [exact Hnone | eauto]. }
  assert (Hcreate : ∀ userId initiator, createPeerConnection userId initiator m = m).
  { intros userId initiator. unfold createPeerConnection. rewrite Hnone.
    destruct (peers m !! userId); reflexivity. }
  destruct c as [userId initiator|offer callerId|answer answererId|candidate senderId
                | | |userId|]; cbn [call].
  - rewrite Hcreate. eauto.
  - unfold handleOffer. rewrite Hcreate. apply Hsig.
  - apply Hsig.
  - apply Hsig.
  - unfold toggleMute. rewrite Hnone. eauto.
  - unfold toggleVideo. rewrite Hnone. eauto.
  - unfold removePeerConnection. destruct (peers m !! userId) eqn:Hp; cbn [localStream peers].
    + split; [exact Hnone|]. intros x peer. rewrite lookup_delete.
      destruct (decide (userId = x)); [discriminate | eauto].
    + eauto.
  - split; [reflexivity|]. intros x peer. cbn. rewrite lookup_empty. discriminate.
Qed.

(** X22. Without a local stream the manager never gains a peer: through
    any sequence of its calls the stream stays absent and every peer in
    the table was there before.  In particular after [cleanup] the
    manager stays empty, so offers, answers and candidates that arrive
    later are dropped and no connection is set up again. *)
Theorem no_stream_no_new_peer (cs : list ManagerCall) (m : WebRTCManager) :
  (localStream m = None →
     localStream (calls cs m) = None ∧
     ∀ userId peer, peers (calls cs m) !! userId = Some peer → is_Some (peers m !! userId)) ∧
  calls cs (cleanup m) = cleanup m.
Proof.
  assert (H : ∀ cs m, localStream m = None →
            localStream (calls cs m) = None ∧
            ∀ userId peer, peers (calls cs m) !! userId = Some peer →
                           is_Some (peers m !! userId)).
  { clear cs m. induction cs as [|c cs IH]; intros m Hnone; [eauto|].
    unfold calls in *. cbn [fold_left].
    destruct (call_without_stream c m Hnone) as [Hnone' Hsub].
    destruct (IH (call c m) Hnone') as [Hnone'' Hsub'].
    split; [exact Hnone''|]. intros userId peer Hp.
    destruct (Hsub' userId peer Hp) as [peer' Hp']. eauto. }
  split; [apply H|].
  destruct (H cs (cleanup m) eq_refl) as [Hnone Hsub].
  destruct (calls cs (cleanup m)) as [stream table]. cbn in Hnone, Hsub. subst stream.
  unfold cleanup. f_equal. apply map_eq. intros x. rewrite lookup_empty.
  destruct (table !! x) as [peer|] eqn:Hx; [|reflexivity].
  destruct (Hsub x peer Hx) as [peer' Hp']. rewrite lookup_empty in Hp'. discriminate.
Qed.

Lemma no_stream_no_new_peer_witness :
  localStream (cleanup (mkManager (Some (mkStream [true] [true])) ∅)) = None ∧
  localStream (calls [CallHandleOffer "sdp-offer" "s2"; CallCreatePeerConnection "s3" true]
                 (cleanup (mkManager (Some (mkStream [true] [true])) ∅))) = None.
Proof.
  assert (H : localStream (cleanup (mkManager (Some (mkStream [true] [true])) ∅)) = None)
    by reflexivity.
  split; [exact H|].
  exact (proj1 (proj1 (no_stream_no_new_peer
                         [CallHandleOffer "sdp-offer" "s2"; CallCreatePeerConnection "s3" true]
                         (cleanup (mkManager (Some (mkStream [true] [true])) ∅))) H)).
Defined.

(** ** The translation panel *)


